(** * ethereumjs-lib: the transaction record of [lib/transaction.js]

    A shallow embedding of [lib/transaction.js] and the properties of its
    constructor, derived [type], hashing, sender recovery, fees and
    validation.

    JavaScript values are an inductive type, a call that can raise returns
    a [result], the transaction object is a record of its [raw] array and
    its [type] attribute, and a method is a function of the record.

    The npm packages the file loads ([rlp], [sha3], [ecdsa], [bigi],
    [bignum]) and the modules of the repository that are not among the
    sources ([utils.js], [fees.js], [ecdsaOps.js]) are variables of the
    section [TransactionJS], except where their behaviour is fixed by their
    documentation or by the specification; those are defined and marked. *)

From Stdlib Require Import ZArith NArith Ascii String Bool Lia.
From Stdlib Require Import Strings.Byte.
From Stdlib Require Import List.
Import ListNotations.

#[local] Set Warnings "-register-all".

Open Scope Z_scope.

(** ** Values, exceptions, results *)

(** The JavaScript values that reach the transaction code. *)
Inductive jsval : Type :=
| Undefined
| Null
| Bool (b : bool)
| Num (n : Z)
| Str (s : string)
| Buffer (b : list byte)
| Arr (l : list jsval).

(** What a call can raise. *)
Inductive exn : Type :=
| InvalidFieldCount          (* throw ('invalid number of fields in transaction data') *)
| AssertionError (msg : string)
| TypeError
| LibraryError (msg : string).

Inductive result (A : Type) : Type :=
| Ok (a : A)
| Throw (e : exn).

Arguments Ok {A} a.
Arguments Throw {A} e.

Definition bind {A B : Type} (r : result A) (k : A -> result B) : result B :=
  match r with
  | Ok a => k a
  | Throw e => Throw e
  end.

Declare Scope js_scope.
Delimit Scope js_scope with js.
Notation "x <- c1 ;; c2" := (bind c1 (fun x => c2))
  (at level 61, c1 at next level, right associativity) : js_scope.
Notation "c1 ;; c2" := (bind c1 (fun _ => c2))
  (at level 61, right associativity) : js_scope.
Open Scope js_scope.

(** [try { key = f() } catch (e) {}] with [key] preset to [false]: the
    absent result is [None]. *)
Definition try_catch {A : Type} (r : result A) : option A :=
  match r with
  | Ok a => Some a
  | Throw _ => None
  end.

(** ** The language: truthiness, arrays *)

(** ToBoolean. A Buffer and an array are objects, so always truthy. *)
Definition truthy (v : jsval) : bool :=
  match v with
  | Undefined | Null => false
  | Bool b => b
  | Num n => negb (n =? 0)
  | Str s => negb (String.eqb s EmptyString)
  | Buffer _ | Arr _ => true
  end.

Definition isArray (v : jsval) : bool :=
  match v with
  | Arr _ => true
  | _ => false
  end.

(** [a[i] = v]: replaces inside the array, extends it at or past its end
    (the slots in between are holes, which read as [undefined]). *)
Fixpoint js_set (a : list jsval) (i : nat) (v : jsval) : list jsval :=
  match a, i with
  | [], O => [v]
  | [], S i' => Undefined :: js_set [] i' v
  | _ :: t, O => v :: t
  | h :: t, S i' => h :: js_set t i' v
  end.

(** [a[i]]: [undefined] out of range. *)
Definition js_get (a : list jsval) (i : nat) : jsval := nth i a Undefined.

(** [a.slice(start, end)]: a negative index counts from the end, both are
    clamped to the array. *)
Definition js_slice {A : Type} (a : list A) (start stop : Z) : list A :=
  let len := Z.of_nat (length a) in
  let k := if start <? 0 then Z.max (len + start) 0 else Z.min start len in
  let final := if stop <? 0 then Z.max (len + stop) 0 else Z.min stop len in
  firstn (Z.to_nat (final - k)) (skipn (Z.to_nat k) a).

(** ** Integers from bytes *)

Definition byte_val (b : byte) : Z := Z.of_N (Byte.to_N b).

(** [bignum.fromBuffer(buf)] and [BigInteger.fromBuffer(buf)], with the
    packages' default options: the bytes are the digits of an unsigned
    integer in base 256, most significant first. Both packages compute in
    arbitrary precision, so the result is a [Z]. *)
Definition fromBuffer (buf : list byte) : Z :=
  fold_left (fun acc b => acc * 256 + byte_val b) buf 0.

(** The integer a byte string denotes, as the specification words it: "its
    canonical big-endian unsigned-integer byte representation". The byte at
    distance [k] from the end weighs [256 ^ k]. *)
Fixpoint be_value (buf : list byte) : Z :=
  match buf with
  | [] => 0
  | b :: rest => byte_val b * 256 ^ Z.of_nat (length rest) + be_value rest
  end.

(** ** The transaction object *)

Inductive tx_type : Type :=
| message
| contract.

Record Transaction : Type := {
  raw : list jsval;    (* this.raw *)
  type : tx_type       (* this.type *)
}.

(** The names handed to [utils.validate] and [utils.defineProperties]. *)
Definition fields : list string :=
  ["nonce"; "gasPrice"; "gasLimit"; "to"; "value"; "data"; "v"; "r"; "s"]%string.

(** Modelled from the spec: [utils.defineProperties] is not among the
    sources. It gives the object one property per name of [fields];
    the specification calls the slots "positionally named", so the getter
    of the [i]th name reads [this.raw[i]]. *)
Definition nonce (tx : Transaction) : jsval := js_get (raw tx) 0.
Definition gasPrice (tx : Transaction) : jsval := js_get (raw tx) 1.
Definition gasLimit (tx : Transaction) : jsval := js_get (raw tx) 2.
Definition to (tx : Transaction) : jsval := js_get (raw tx) 3.
Definition value (tx : Transaction) : jsval := js_get (raw tx) 4.
Definition data (tx : Transaction) : jsval := js_get (raw tx) 5.
Definition v (tx : Transaction) : jsval := js_get (raw tx) 6.
Definition r (tx : Transaction) : jsval := js_get (raw tx) 7.
Definition s (tx : Transaction) : jsval := js_get (raw tx) 8.

(** Modelled from the spec: [utils.zero256] is not among the sources.
    "[r] and [s] are fixed-width 256-bit big-endian integers
    (zero-padded)": the zero of that width, 32 zero bytes. *)
Definition zero256 : list byte := repeat x00 32.

(** Modelled from the spec: [utils.bufferToInt] is not among the
    sources. The specification reads a field through it "as integer,
    not byte length": the unsigned big-endian integer of the Buffer. An
    argument that is not a Buffer is outside what the specification
    describes and is modelled as a [TypeError]. JavaScript numbers are
    exact only below [2 ^ 53]; the model keeps the integer exact. The
    specification's words fix neither what the function returns on the
    empty Buffer nor on a hex string: the properties of [type] below are
    stated for a [to] that is a Buffer of at least one byte, where zero
    and non-zero are what the words say. *)
Definition bufferToInt (buf : jsval) : result Z :=
  match buf with
  | Buffer b => Ok (fromBuffer b)
  | _ => Throw TypeError
  end.

(** [bignum.fromBuffer] and [BigInteger.fromBuffer] applied to a field:
    the packages read a Buffer; another value is modelled as a
    [TypeError]. *)
Definition fieldInteger (buf : jsval) : result Z :=
  match buf with
  | Buffer b => Ok (fromBuffer b)
  | _ => Throw TypeError
  end.

(** [utils.bufferToInt(x) !== 0 ? 'message' : 'contract'], lines 75 and 89. *)
Definition type_of (x : jsval) : result tx_type :=
  n <- bufferToInt x ;;
  Ok (if negb (n =? 0) then message else contract).

(** The default values of lines 17 to 27. *)
Definition default_raw : list jsval :=
  [ Buffer [x00];      (* nonce *)
    Buffer [x00];      (* gasPrice *)
    Buffer [x00];      (* gasLimit *)
    Buffer [x00];      (* to *)
    Buffer [x00];      (* value *)
    Buffer [x00];      (* data *)
    Buffer [x1c];      (* v *)
    Buffer zero256;    (* r *)
    Buffer zero256 ].  (* s *)

(** ** Reference collaborators

    Executable versions of the collaborators, to run the definitions on
    concrete transactions. The properties below hold for any collaborators;
    these only instantiate them. *)
Module Ref.

Definition byte_of_N (n : N) : byte :=
  match Byte.of_N n with
  | Some b => b
  | None => x00
  end.

Definition hex_digit (c : ascii) : option N :=
  let n := N_of_ascii c in
  (if (48 <=? n) && (n <=? 57) then Some (n - 48)
   else if (97 <=? n) && (n <=? 102) then Some (n - 87)
   else if (65 <=? n) && (n <=? 70) then Some (n - 55)
   else None)%N.

(** [new Buffer(str, 'hex')]: two hexadecimal digits per byte; a string
    that is not hexadecimal is refused. *)
Fixpoint Buffer_hex (str : string) : result (list byte) :=
  match str with
  | EmptyString => Ok []
  | String _ EmptyString => Throw TypeError
  | String c1 (String c2 rest) =>
      match hex_digit c1, hex_digit c2 with
      | Some hi, Some lo =>
          bs <- Buffer_hex rest ;;
          Ok (byte_of_N (16 * hi + lo) :: bs)
      | _, _ => Throw TypeError
      end
  end.

(** The base-256 digits of [n], most significant first, none for zero. *)
Fixpoint be_bytes (fuel : nat) (n : N) (acc : list byte) : list byte :=
  match fuel with
  | O => acc
  | S fuel' =>
      if (n =? 0)%N then acc
      else be_bytes fuel' (n / 256)%N (byte_of_N (n mod 256)%N :: acc)
  end.

(** The header of an RLP item: one byte [short + length] up to 55 bytes
    of payload, else [long + length of the length] and the length. *)
Definition rlp_header (short long : N) (payload : list byte) : list byte :=
  let len := N.of_nat (length payload) in
  if (len <=? 55)%N then [byte_of_N (short + len)]
  else
    let lb := be_bytes 8 len [] in
    byte_of_N (long + N.of_nat (length lb)) :: lb.

Definition rlp_string (b : list byte) : list byte :=
  match b with
  | [c] => if (Byte.to_N c <? 128)%N then [c] else rlp_header 128 183 b ++ b
  | _ => rlp_header 128 183 b ++ b
  end.

(** The encodings of the items of a list, one after the other. *)
Definition encode_all (encode : jsval -> result (list byte))
  : list jsval -> result (list byte) :=
  fix go (l : list jsval) : result (list byte) :=
    match l with
    | [] => Ok []
    | y :: rest =>
        e <- encode y ;;
        es <- go rest ;;
        Ok (e ++ es)
    end.

(** [rlp.encode] on Buffers and arrays of them. *)
Fixpoint rlp_encode (x : jsval) : result (list byte) :=
  match x with
  | Buffer b => Ok (rlp_string b)
  | Arr l =>
      payload <- encode_all rlp_encode l ;;
      Ok (rlp_header 192 247 payload ++ payload)
  | _ => Throw TypeError
  end.

(** The payload of a list of byte strings. *)
Definition payload (fs : list (list byte)) : list byte :=
  concat (map rlp_string fs).

Definition malformed {A : Type} : result A := Throw (LibraryError "invalid rlp").

(** Splits [len] bytes off the input. *)
Definition take (len : N) (input : list byte) : result (list byte * list byte) :=
  let n := N.to_nat len in
  if (n <=? length input)%nat then Ok (firstn n input, skipn n input) else malformed.

(** Reads a length written on [ll] bytes, then that many bytes. *)
Definition take_long (ll : N) (input : list byte) : result (list byte * list byte) :=
  lr <- take ll input ;;
  take (Z.to_N (fromBuffer (fst lr))) (snd lr).

Fixpoint decode_item (fuel : nat) (input : list byte) : result (jsval * list byte) :=
  match fuel with
  | O => malformed
  | S fuel' =>
      match input with
      | [] => malformed
      | b :: rest =>
          let n := Byte.to_N b in
          if (n <? 128)%N then Ok (Buffer [b], rest)
          else if (n <=? 183)%N then
            pr <- take (n - 128) rest ;; Ok (Buffer (fst pr), snd pr)
          else if (n <? 192)%N then
            pr <- take_long (n - 183) rest ;; Ok (Buffer (fst pr), snd pr)
          else if (n <=? 247)%N then
            pr <- take (n - 192) rest ;;
            items <- decode_list fuel' (fst pr) ;;
            Ok (Arr items, snd pr)
          else
            pr <- take_long (n - 247) rest ;;
            items <- decode_list fuel' (fst pr) ;;
            Ok (Arr items, snd pr)
      end
  end
with decode_list (fuel : nat) (input : list byte) : result (list jsval) :=
  match fuel with
  | O => malformed
  | S fuel' =>
      match input with
      | [] => Ok []
      | _ =>
          xr <- decode_item fuel' input ;;
          xs <- decode_list fuel' (snd xr) ;;
          Ok (fst xr :: xs)
      end
  end.

(** [rlp.decode] on a Buffer: one item, and nothing after it. *)
Definition rlp_decode (x : jsval) : result jsval :=
  match x with
  | Buffer b =>
      xr <- decode_item (2 * length b + 2) b ;;
      match snd xr with
      | [] => Ok (fst xr)
      | _ => malformed
      end
  | _ => Throw TypeError
  end.

(** A stand-in for the digest, 32 bytes long: the byte-wise sum of the
    32-byte blocks of the input. Nothing below depends on what the digest
    computes. *)
Fixpoint add_block (acc input : list byte) : list byte :=
  match acc, input with
  | a :: acc', b :: input' =>
      byte_of_N ((Byte.to_N a + Byte.to_N b) mod 256)%N :: add_block acc' input'
  | _, _ => acc
  end.

Fixpoint digest_blocks (fuel : nat) (acc input : list byte) : list byte :=
  match fuel with
  | O => acc
  | S fuel' =>
      match input with
      | [] => acc
      | _ => digest_blocks fuel' (add_block acc input) (skipn 32 input)
      end
  end.

Definition digest (input : list byte) : list byte :=
  digest_blocks (length input) zero256 input.

(** The order of the secp256k1 group. *)
Definition curve_n : Z :=
  0xFFFFFFFFFFFFFFFFFFFFFFFFFFFFFFFEBAAEDCE6AF48A03BBFD25E8CD0364141.

(** [ecdsa.recoverPubKey] as far as its range assertions: [r] and [s]
    outside [1 .. n-1] and a recovery index outside [0 .. 3] raise; the
    curve arithmetic is not modelled, the key is a placeholder. *)
Definition recoverPubKey (e : Z) (sig : Z * Z * Z) (i : Z) : result (list byte) :=
  let '(sig_r, sig_s, _) := sig in
  if negb ((0 <=? i) && (i <=? 3)) then Throw (AssertionError "i must be between 0 and 3")
  else if negb ((0 <? sig_r) && (sig_r <? curve_n)) then Throw (AssertionError "Invalid r value")
  else if negb ((0 <? sig_s) && (sig_s <? curve_n)) then Throw (AssertionError "Invalid s value")
  else Ok [x04].

(** [utils.pubToAddress] reading its argument as a Buffer: the last 20
    bytes of the digest of the key without its first byte; the [false]
    of a failed recovery is no Buffer, and reading it raises. *)
Definition pubToAddress (pubKey : option (list byte)) : result (option (list byte)) :=
  match pubKey with
  | Some k =>
      let d := digest (tl k) in
      Ok (Some (skipn (length d - 20) d))
  | None => Throw TypeError
  end.

(** A validator that accepts: [parse] hands [utils.validate] bare names,
    with no length to hold a field to. *)
Definition validate (names : list string) (raw : list jsval) : result unit := Ok tt.

(** [utils.intToBuffer] on a number. *)
Definition intToBuffer (x : jsval) : result (list byte) :=
  match x with
  | Num n => if n <? 0 then Throw TypeError else Ok (be_bytes 32 (Z.to_N n) [])
  | _ => Throw TypeError
  end.

(** A fee table. *)
Definition getFee (name : string) : Z :=
  if String.eqb name "TXDATA" then 5
  else if String.eqb name "TRANSACTION" then 500
  else 0.

(** A signature check that accepts, to exercise the gas test of
    [validate]. *)
Definition verifySignature (tx : Transaction) : result bool := Ok true.

End Ref.

(** The transaction a construction without argument builds. *)
Definition default_tx : Transaction := {| raw := default_raw; type := contract |}.

(** A signed message call: 20-byte recipient, two bytes of payload. *)
Definition sample_fields : list (list byte) :=
  [ [x01];               (* nonce *)
    [x0a];               (* gasPrice: 10 *)
    [x07; xd0];          (* gasLimit: 2000 *)
    repeat xaa 20;       (* to *)
    [x01; x00];          (* value: 256 *)
    [xca; xfe];          (* data *)
    [x1b];               (* v: 27 *)
    repeat x11 32;       (* r *)
    repeat x22 32 ].     (* s *)

Definition sample_raw : list jsval := map Buffer sample_fields.

Definition sample_tx : Transaction := {| raw := sample_raw; type := message |}.

(** The same call before signing: the first six fields of [sample_tx],
    and the default [v], [r], [s]. *)
Definition unsigned_sample_tx : Transaction :=
  {| raw := firstn 6 sample_raw ++ [Buffer [x1c]; Buffer zero256; Buffer zero256];
     type := message |}.

(** The bytes of [sample_tx] under the reference codec. *)
Definition sample_wire : list byte :=
  match Ref.rlp_encode (Arr sample_raw) with
  | Ok wire => wire
  | Throw _ => []
  end.

(** The signing hash of [default_tx] under the reference codec and digest. *)
Definition default_signing_hash : list byte :=
  match Ref.rlp_encode (Arr (firstn 6 default_raw)) with
  | Ok enc => Ref.digest enc
  | Throw _ => []
  end.

(** A transaction whose [gasPrice], [gasLimit] and [value] are 33 bytes
    of [0xff] each, wider than 256 bits. *)
Definition wide_tx : Transaction :=
  {| raw := [ Buffer [x00]; Buffer (repeat xff 33); Buffer (repeat xff 33);
              Buffer (repeat xaa 20); Buffer (repeat xff 33); Buffer [];
              Buffer [x1c]; Buffer zero256; Buffer zero256 ];
     type := message |}.

(** The zero address. *)
Definition zero_address : list byte := repeat x00 20.

(** [sample_tx] with its [gasPrice], [gasLimit] and [value] written on
    more bytes: three, one and five zero bytes in front. *)
Definition padded_sample_tx : Transaction :=
  {| raw := [ Buffer [x01];
              Buffer (repeat x00 3 ++ [x0a]);
              Buffer (repeat x00 1 ++ [x07; xd0]);
              Buffer (repeat xaa 20);
              Buffer (repeat x00 5 ++ [x01; x00]);
              Buffer [xca; xfe];
              Buffer [x1b]; Buffer (repeat x11 32); Buffer (repeat x22 32) ];
     type := message |}.

(** [sample_tx] with a payload of three bytes. *)
Definition longer_sample_tx : Transaction :=
  {| raw := [ Buffer [x01]; Buffer [x0a]; Buffer [x07; xd0];
              Buffer (repeat xaa 20); Buffer [x01; x00];
              Buffer [xca; xfe; x00];
              Buffer [x1b]; Buffer (repeat x11 32); Buffer (repeat x22 32) ];
     type := message |}.

(** The fields of [sample_tx] with the nonce as a hex string. *)
Definition hex_items : list jsval :=
  Str "01" :: tl sample_raw.

(** Too many items: nine Buffers and a hex string. *)
Definition ten_items : list jsval :=
  repeat (Buffer [x00]) 9 ++ [Str "ff"].

(** The signing hash of [sample_tx] under the reference codec and digest. *)
Definition sample_signing_hash : list byte :=
  match Ref.rlp_encode (Arr (firstn 6 sample_raw)) with
  | Ok enc => Ref.digest enc
  | Throw _ => []
  end.

(** [default_tx] once the setter of [to] has stored the zero address. *)
Definition zeroed_tx : Transaction :=
  {| raw := js_set default_raw 3 (Buffer zero_address); type := contract |}.

(** [default_tx] once the setter of [to] has stored the address of
    [sample_tx]. *)
Definition addressed_tx : Transaction :=
  {| raw := [ Buffer [x00]; Buffer [x00]; Buffer [x00];
              Buffer (repeat xaa 20);
              Buffer [x00]; Buffer [x00];
              Buffer [x1c]; Buffer zero256; Buffer zero256 ];
     type := message |}.

Section TransactionJS.

(** *** Collaborators *)

(** [new Buffer(str, 'hex')] of the Node runtime. *)
Variable Buffer_hex : string -> result (list byte).

(** [rlp.encode] and [rlp.decode] of the [rlp] package. *)
Variable rlp_encode : jsval -> result (list byte).
Variable rlp_decode : jsval -> result jsval.

(** [new SHA3.SHA3Hash(256)], [update], [digest] of the [sha3] package:
    the digest of a byte string. *)
Variable SHA3_256 : list byte -> list byte.

(** [ecdsa.recoverPubKey(e, sig, i)] of the [ecdsa] package, with the
    signature as [(r, s, v)], and the public key as its bytes. *)
Variable recoverPubKey : Z -> Z * Z * Z -> Z -> result (list byte).

(** [utils.validate(fields, raw)], not among the sources: it
    returns, or raises. *)
Variable utils_validate : list string -> list jsval -> result unit.

(** [utils.intToBuffer], not among the sources. *)
Variable utils_intToBuffer : jsval -> result (list byte).

(** [fees.getFee(name)], not among the sources: the fee table. *)
Variable getFee : string -> Z.

(** [ecdsaOps.verifySignature], not among the sources, as a
    method of the transaction. *)
Variable verifySignature : Transaction -> result bool.

(** [utils.pubToAddress], not among the sources. It receives what
    [getSenderPublicKey] returned, the absent key included, and returns
    an address, or raises. *)
Variable utils_pubToAddress : option (list byte) -> result (option (list byte)).

(** *** parse *)

(** Line 59: [typeof d === 'string' ? new Buffer(d, 'hex') : d]. *)
Definition toItem (d : jsval) : result jsval :=
  match d with
  | Str str => b <- Buffer_hex str ;; Ok (Buffer b)
  | _ => Ok d
  end.

(** Lines 58 to 60: [data.forEach(function (d, i) { self.raw[i] = ... })],
    from index [i] on. When [data] is [this.raw] itself (a construction
    without argument) every write puts back the value it has just read,
    so the pure update is what the aliased one does. The arrays of the
    model are dense: [forEach] skips the holes of a sparse array, which
    an [Arr] does not have. *)
Fixpoint forEach_store (self_raw : list jsval) (i : nat) (items : list jsval)
  : result (list jsval) :=
  match items with
  | [] => Ok self_raw
  | d :: rest =>
      x <- toItem d ;;
      forEach_store (js_set self_raw i x) (S i) rest
  end.

(** Lines 62 to 65: [if (data.length === 6) this.raw = data.concat(null, null, null)]. *)
Definition pad_unsigned (self_raw items : list jsval) : list jsval :=
  if Nat.eqb (length items) 6 then items ++ [Null; Null; Null] else self_raw.

(** Lines 68 to 70: the test reads [data.length]. *)
Definition check_count (items : list jsval) : result unit :=
  if negb (Nat.eqb (length items) 9) then Throw InvalidFieldCount else Ok tt.

(** [Transaction.prototype.parse]. [self_raw] is [this.raw] on entry.
    [data.forEach] exists on an array only. *)
Definition parse (self_raw : list jsval) (data : jsval) : result Transaction :=
  match data with
  | Arr items =>
      raw1 <- forEach_store self_raw 0 items ;;
      let raw2 := pad_unsigned raw1 items in
      check_count items ;;
      utils_validate fields raw2 ;;
      ty <- type_of (js_get items 3) ;;
      Ok {| raw := raw2; type := ty |}
  | _ => Throw TypeError
  end.

(** The constructor, lines 14 to 36. *)
Definition new_Transaction (data : jsval) : result Transaction :=
  data1 <- (if truthy data && negb (isArray data) then rlp_decode data else Ok data) ;;
  let data2 := if negb (truthy data1) then Arr default_raw else data1 in
  parse default_raw data2.

(** The setter of [to] that [parse] installs, lines 77 to 91. *)
Definition set_to (tx : Transaction) (x : jsval) : result Transaction :=
  b <- match x with
       | Buffer b => Ok b
       | Str str => Buffer_hex str
       | _ => utils_intToBuffer x
       end ;;
  if negb (Nat.eqb (length b) 20)
  then Throw (AssertionError "The field `to` must have byte length of 20")
  else
    let raw' := js_set (raw tx) 3 (Buffer b) in
    ty <- type_of (js_get raw' 3) ;;
    Ok {| raw := raw'; type := ty |}.

(** *** serialize, hash *)

Definition serialize (tx : Transaction) : result (list byte) :=
  rlp_encode (Arr (raw tx)).

(** [Transaction.prototype.hash], lines 109 to 126. *)
Definition hash (tx : Transaction) (signature : jsval) : result (list byte) :=
  let signature :=
    match signature with
    | Undefined => Bool true
    | _ => signature
    end in
  let toHash := if truthy signature then raw tx else js_slice (raw tx) 0 (-3) in
  enc <- rlp_encode (Arr toHash) ;;
  Ok (SHA3_256 enc).

(** What the specification says [hash] digests: the canonical encoding
    of a list of fields. *)
Definition digest_of_fields (fs : list jsval) : result (list byte) :=
  enc <- rlp_encode (Arr fs) ;; Ok (SHA3_256 enc).

(** *** Sender *)

(** [Transaction.prototype.getSenderPublicKey], lines 143 to 162. The
    [false] that [key] holds when [recoverPubKey] raised is [None]. *)
Definition getSenderPublicKey (tx : Transaction) : result (option (list byte)) :=
  msgHash <- hash tx (Bool false) ;;
  sig_r <- fieldInteger (r tx) ;;
  sig_s <- fieldInteger (s tx) ;;
  vi <- bufferToInt (v tx) ;;
  let sig_v := vi - 27 in
  let e := fromBuffer msgHash in
  Ok (try_catch (recoverPubKey e (sig_r, sig_s, sig_v) sig_v)).

(** [Transaction.prototype.getSenderAddress], lines 133 to 136: the key
    goes to [utils.pubToAddress] as it is, with no test for the absent
    one. *)
Definition getSenderAddress (tx : Transaction) : result (option (list byte)) :=
  pubKey <- getSenderPublicKey tx ;;
  utils_pubToAddress pubKey.

(** *** Fees *)

(** [data.length === 1 && data[0] === 0] on a Buffer. *)
Definition is_zero_sentinel (buf : list byte) : bool :=
  Nat.eqb (length buf) 1 && (byte_val (nth 0 buf x00) =? 0).

(** [Transaction.prototype.getDataFee], lines 182 to 189. The payload
    of a parsed transaction is a Buffer; another value is modelled as a
    [TypeError]. *)
Definition getDataFee (tx : Transaction) : result Z :=
  match js_get (raw tx) 5 with
  | Buffer buf =>
      if is_zero_sentinel buf then Ok 0
      else Ok (Z.of_nat (length buf) * getFee "TXDATA")
  | _ => Throw TypeError
  end.

(** [Transaction.prototype.getBaseFee], lines 196 to 198. *)
Definition getBaseFee (tx : Transaction) : result Z :=
  fee <- getDataFee tx ;;
  Ok (fee + getFee "TRANSACTION").

(** [Transaction.prototype.getUpfrontCost], lines 205 to 209. *)
Definition getUpfrontCost (tx : Transaction) : result Z :=
  limit <- fieldInteger (gasLimit tx) ;;
  price <- fieldInteger (gasPrice tx) ;;
  val <- fieldInteger (value tx) ;;
  Ok (limit * price + val).

(** [Transaction.prototype.validate], lines 216 to 218. [&&] evaluates
    its right operand only when the left one is [true]; [<=] compares the
    bignum of [getBaseFee] and the number of [bufferToInt] by their
    numeric values. *)
Definition validate (tx : Transaction) : result bool :=
  ok <- verifySignature tx ;;
  if ok
  then
    fee <- getBaseFee tx ;;
    limit <- bufferToInt (gasLimit tx) ;;
    Ok (fee <=? limit)
  else Ok false.


(** *** The array the constructor parses *)

(** Lines 29 to 33: what the constructor hands to [parse], the argument
    itself, what it decodes to, or the defaults. *)
Definition parsed_data (data : jsval) : result jsval :=
  data1 <- (if truthy data && negb (isArray data) then rlp_decode data else Ok data) ;;
  Ok (if negb (truthy data1) then Arr default_raw else data1).

(** *** The states of a transaction *)

(** What a program can hold: a transaction the constructor returned, and
    what the setter of [to] returned on one of those. *)
Inductive reachable : Transaction -> Prop :=
| reach_new (d : jsval) (tx : Transaction) :
    new_Transaction d = Ok tx -> reachable tx
| reach_set_to (tx tx' : Transaction) (x : jsval) :
    reachable tx -> set_to tx x = Ok tx' -> reachable tx'.

(** ** Properties *)

(** *** Bytes and integers *)

Lemma byte_val_range (b : byte) : 0 <= byte_val b < 256.
Proof.
  unfold byte_val. pose proof (Byte.to_N_bounded b). lia.
Qed.

Lemma byte_val_zero (b : byte) : byte_val b = 0 <-> b = x00.
Proof.
  split.
  - intros H. unfold byte_val in H.
    assert (Hn : Byte.to_N b = 0%N) by lia.
    pose proof (Byte.of_to_N b) as Hb. rewrite Hn in Hb.
    simpl in Hb. congruence.
  - intros ->. reflexivity.
Qed.

(** The left-to-right accumulation of [fromBuffer], started from [acc],
    shifts [acc] by the length of the buffer. *)
Lemma fold_fromBuffer (buf : list byte) :
  forall acc,
    fold_left (fun a b => a * 256 + byte_val b) buf acc
    = acc * 256 ^ Z.of_nat (length buf) + be_value buf.
Proof.
  induction buf as [|b rest IH]; intros acc.
  - simpl. lia.
  - cbn [fold_left be_value length]. rewrite IH.
    rewrite Nat2Z.inj_succ, Z.pow_succ_r by lia. ring.
Qed.

(** [fromBuffer] computes the big-endian value of the specification. *)
Lemma fromBuffer_be_value (buf : list byte) : fromBuffer buf = be_value buf.
Proof.
  unfold fromBuffer. rewrite fold_fromBuffer. lia.
Qed.

Lemma be_value_range (buf : list byte) :
  0 <= be_value buf < 256 ^ Z.of_nat (length buf).
Proof.
  induction buf as [|b rest IH].
  - simpl. lia.
  - cbn [be_value length]. rewrite Nat2Z.inj_succ, Z.pow_succ_r by lia.
    pose proof (byte_val_range b). nia.
Qed.

(** *** Fees *)

Lemma is_zero_sentinel_iff (buf : list byte) :
  is_zero_sentinel buf = true <-> buf = [x00].
Proof.
  unfold is_zero_sentinel. split.
  - intros H. apply andb_true_iff in H as [Hlen Hb].
    apply Nat.eqb_eq in Hlen. apply Z.eqb_eq in Hb.
    destruct buf as [|b [|c rest]]; simpl in Hlen; try discriminate.
    simpl in Hb. apply byte_val_zero in Hb. now subst.
  - intros ->. reflexivity.
Qed.

(** C7. [getDataFee] is 0 when the payload is the single zero byte, and
    otherwise the length of the payload times the TXDATA fee. *)
Theorem getDataFee_sentinel_or_length (tx : Transaction) (payload : list byte) :
  data tx = Buffer payload ->
  (payload = [x00] -> getDataFee tx = Ok 0) /\
  (payload <> [x00] ->
   getDataFee tx = Ok (Z.of_nat (length payload) * getFee "TXDATA")).
Proof.
  intros Hdata. unfold getDataFee. unfold data in Hdata. rewrite Hdata.
  destruct (is_zero_sentinel payload) eqn:Hz.
  - apply is_zero_sentinel_iff in Hz. split; [reflexivity | congruence].
  - split; [|reflexivity].
    intros ->. now rewrite (proj2 (is_zero_sentinel_iff [x00]) eq_refl) in Hz.
Qed.

(** C9. [getUpfrontCost] is [gasLimit * gasPrice + value] on the
    big-endian values of the three fields, computed in [Z], whatever the
    lengths of the byte strings. *)
Theorem getUpfrontCost_exact (tx : Transaction) (limit price val : list byte) :
  gasLimit tx = Buffer limit ->
  gasPrice tx = Buffer price ->
  value tx = Buffer val ->
  getUpfrontCost tx = Ok (be_value limit * be_value price + be_value val).
Proof.
  intros Hl Hp Hv. unfold getUpfrontCost. rewrite Hl, Hp, Hv. simpl.
  now rewrite !fromBuffer_be_value.
Qed.

(** C5. [validate] answers [true] exactly when [verifySignature] does and
    the base fee is at most [gasLimit] read as an integer; with a
    [gasLimit] under the base fee it answers [false], also when the
    signature verifies. *)
Theorem validate_iff_signature_and_gas (tx : Transaction) (limit payload : list byte) :
  gasLimit tx = Buffer limit ->
  data tx = Buffer payload ->
  exists fee,
    getBaseFee tx = Ok fee /\
    (validate tx = Ok true <->
     verifySignature tx = Ok true /\ fee <= be_value limit) /\
    (be_value limit < fee ->
     forall verified, verifySignature tx = Ok verified -> validate tx = Ok false).
Proof.
  intros Hl Hd.
  assert (Hfee : exists fee, getBaseFee tx = Ok fee).
  { unfold getBaseFee, getDataFee. unfold data in Hd. rewrite Hd.
    destruct (is_zero_sentinel payload); simpl; eauto. }
  destruct Hfee as [fee Hfee]. exists fee. split; [exact Hfee|].
  unfold validate. rewrite Hfee, Hl. simpl. rewrite fromBuffer_be_value.
  destruct (verifySignature tx) as [[|]|e]; simpl.
  - split.
    + split.
      * intros H. injection H as H. apply Z.leb_le in H. auto.
      * intros [_ H]. apply Z.leb_le in H. now rewrite H.
    + intros Hlt verified _. f_equal. apply Z.leb_gt. exact Hlt.
  - split.
    + split; [discriminate | intros [H _]; discriminate].
    + reflexivity.
  - split.
    + split; [discriminate | intros [H _]; discriminate].
    + intros _ verified H. discriminate.
Qed.


(** *** Array writes *)

Lemma js_set_length (i : nat) :
  forall (a : list jsval) (x : jsval),
    length (js_set a i x) = Nat.max (length a) (S i).
Proof.
  induction i as [|i IH]; intros [|h t] x; simpl; try reflexivity.
  - lia.
  - now rewrite IH.
  - now rewrite IH.
Qed.

Lemma js_get_set_eq (i : nat) :
  forall (a : list jsval) (x : jsval), js_get (js_set a i x) i = x.
Proof.
  unfold js_get. induction i as [|i IH]; intros [|h t] x; simpl; auto.
Qed.

Lemma js_get_set_ne (i : nat) :
  forall (a : list jsval) (j : nat) (x : jsval),
    i <> j -> js_get (js_set a i x) j = js_get a j.
Proof.
  unfold js_get. induction i as [|i IH]; intros [|h t] [|j] x Hne; simpl;
    try reflexivity; try congruence.
  - now destruct j.
  - rewrite IH by congruence. now destruct j.
  - apply IH. congruence.
Qed.

Lemma firstn_js_set (a : list jsval) (i n : nat) (x : jsval) :
  (n <= i)%nat -> (n <= length a)%nat -> firstn n (js_set a i x) = firstn n a.
Proof.
  revert a i. induction n as [|n IH]; intros a i Hi Ha; [reflexivity|].
  destruct a as [|h t]; simpl in Ha; [lia|].
  destruct i as [|i]; [lia|].
  simpl. f_equal. apply IH; lia.
Qed.

(** *** parse *)

Lemma forEach_store_length (items : list jsval) :
  forall (self_raw : list jsval) (i : nat) (out : list jsval),
    forEach_store self_raw i items = Ok out ->
    length out = match items with
                 | [] => length self_raw
                 | _ => Nat.max (length self_raw) (i + length items)
                 end.
Proof.
  induction items as [|d rest IH]; intros self_raw i out H; simpl in H.
  - now injection H as <-.
  - destruct (toItem d) as [x|e]; simpl in H; [|discriminate].
    apply IH in H. rewrite H, js_set_length.
    destruct rest; simpl; lia.
Qed.

(** The callback at index [i + j] leaves the slots below it alone. *)
Lemma forEach_store_below (items : list jsval) :
  forall (self_raw : list jsval) (i : nat) (out : list jsval),
    forEach_store self_raw i items = Ok out ->
    forall k, (k < i)%nat -> js_get out k = js_get self_raw k.
Proof.
  induction items as [|d rest IH]; intros self_raw i out H k Hk; simpl in H.
  - now injection H as <-.
  - destruct (toItem d) as [x|e]; simpl in H; [|discriminate].
    rewrite (IH _ _ _ H k) by lia. apply js_get_set_ne. lia.
Qed.

(** After the loop, slot [i + j] holds item [j], made a Buffer when it
    was a string. *)
Lemma forEach_store_nth (items : list jsval) :
  forall (self_raw : list jsval) (i : nat) (out : list jsval),
    forEach_store self_raw i items = Ok out ->
    forall j d, nth_error items j = Some d ->
                toItem d = Ok (js_get out (i + j)).
Proof.
  induction items as [|d0 rest IH]; intros self_raw i out H j d Hj; simpl in H.
  - destruct j; discriminate.
  - destruct (toItem d0) as [x|e] eqn:Hx; simpl in H; [|discriminate].
    destruct j as [|j]; simpl in Hj.
    + injection Hj as <-. rewrite Hx. f_equal.
      rewrite Nat.add_0_r.
      rewrite (forEach_store_below _ _ _ _ H i) by lia.
      symmetry. apply js_get_set_eq.
    + rewrite (IH _ _ _ H j d Hj). f_equal. f_equal. lia.
Qed.

(** A list of Buffers of the length of [this.raw] replaces it whole. *)
Lemma forEach_store_buffers (fs : list (list byte)) (self_raw : list jsval) :
  length fs = 9%nat -> length self_raw = 9%nat ->
  forEach_store self_raw 0 (map Buffer fs) = Ok (map Buffer fs).
Proof.
  intros Hfs Hraw.
  do 10 (destruct fs as [|? fs]; try discriminate).
  do 10 (destruct self_raw as [|? self_raw]; try discriminate).
  reflexivity.
Qed.

(** What a [parse] that returns has done. *)
Lemma parse_inv (self_raw : list jsval) (d : jsval) (tx : Transaction) :
  parse self_raw d = Ok tx ->
  exists items,
    d = Arr items /\ length items = 9%nat /\
    forEach_store self_raw 0 items = Ok (raw tx) /\
    utils_validate fields (raw tx) = Ok tt /\
    type_of (js_get items 3) = Ok (type tx).
Proof.
  unfold parse. destruct d as [| | | | |?|items]; try discriminate.
  intros H. exists items.
  destruct (forEach_store self_raw 0 items) as [raw1|e]; simpl in H; [|discriminate].
  unfold check_count in H.
  destruct (Nat.eqb (length items) 9) eqn:Hlen; simpl in H; [|discriminate].
  apply Nat.eqb_eq in Hlen.
  unfold pad_unsigned in H. rewrite Hlen in H. simpl in H.
  destruct (utils_validate fields raw1) as [[]|e] eqn:Hv; simpl in H; [|discriminate].
  destruct (type_of (js_get items 3)) as [ty|e] eqn:Hty; simpl in H; [|discriminate].
  injection H as <-. simpl. auto.
Qed.

Lemma new_Transaction_inv (d : jsval) (tx : Transaction) :
  new_Transaction d = Ok tx -> exists d', parse default_raw d' = Ok tx.
Proof.
  unfold new_Transaction.
  destruct (if truthy d && negb (isArray d) then rlp_decode d else Ok d);
    simpl; [|discriminate].
  eauto.
Qed.

(** A constructed transaction has nine slots. *)
Lemma new_Transaction_length (d : jsval) (tx : Transaction) :
  new_Transaction d = Ok tx -> length (raw tx) = 9%nat.
Proof.
  intros H. apply new_Transaction_inv in H as [d' H].
  apply parse_inv in H as (items & _ & Hlen & Hst & _).
  apply forEach_store_length in Hst. rewrite Hst.
  destruct items; [discriminate|]. rewrite Hlen. reflexivity.
Qed.

(** The setter keeps them nine. *)
Lemma set_to_length (tx tx' : Transaction) (x : jsval) :
  set_to tx x = Ok tx' -> length (raw tx) = 9%nat -> length (raw tx') = 9%nat.
Proof.
  unfold set_to. intros H Hlen.
  destruct (match x with
            | Buffer b => Ok b
            | Str str => Buffer_hex str
            | _ => utils_intToBuffer x
            end) as [b|e]; cbn [bind] in H; [|discriminate].
  destruct (negb (Nat.eqb (length b) 20)); [discriminate|].
  destruct (type_of _) as [a|e]; cbn [bind] in H; [|discriminate].
  assert (Htx : tx' = {| raw := js_set (raw tx) 3 (Buffer b); type := a |})
    by congruence.
  rewrite Htx. cbn [raw]. rewrite js_set_length, Hlen. reflexivity.
Qed.

(** With any count but nine, a list whose items were stored is refused
    for its count. *)
Lemma parse_count (self_raw items out : list jsval) :
  forEach_store self_raw 0 items = Ok out ->
  length items <> 9%nat ->
  parse self_raw (Arr items) = Throw InvalidFieldCount.
Proof.
  intros Hst Hlen. unfold parse. rewrite Hst. simpl.
  unfold check_count. apply Nat.eqb_neq in Hlen. now rewrite Hlen.
Qed.

(** Six items are padded to nine slots, and then refused: the count is
    read off [data], which still has six. *)
Lemma parse_six (self_raw items out : list jsval) :
  forEach_store self_raw 0 items = Ok out ->
  length items = 6%nat ->
  length (pad_unsigned out items) = 9%nat /\
  parse self_raw (Arr items) = Throw InvalidFieldCount.
Proof.
  intros Hst Hlen. split.
  - unfold pad_unsigned. rewrite Hlen. simpl. rewrite length_app, Hlen. reflexivity.
  - apply (parse_count _ _ _ Hst). lia.
Qed.

(** C1. An unsigned draft of six one-byte fields: [parse] pads [this.raw]
    with three [null]s, and the constructor then raises the field-count
    error. *)
Theorem unsigned_draft_refused :
  let draft := repeat (Buffer [x00]) 6 in
  pad_unsigned default_raw draft = draft ++ [Null; Null; Null] /\
  new_Transaction (Arr draft) = Throw InvalidFieldCount.
Proof.
  split; reflexivity.
Qed.


(** *** hash *)

(** [a.slice(0, -3)] drops the last three elements. *)
Lemma js_slice_drop3 {A : Type} (a : list A) :
  js_slice a 0 (-3) = firstn (length a - 3) a.
Proof.
  unfold js_slice. cbn [Z.ltb Z.compare].
  replace (Z.min 0 (Z.of_nat (length a))) with 0 by lia.
  cbn [Z.to_nat skipn]. f_equal. lia.
Qed.

(** The signing hash of a nine-slot record digests its first six slots. *)
Lemma hash_unsigned_firstn (tx : Transaction) :
  length (raw tx) = 9%nat ->
  hash tx (Bool false) = digest_of_fields (firstn 6 (raw tx)).
Proof.
  intros Hlen. unfold hash, digest_of_fields. cbn [truthy].
  now rewrite js_slice_drop3, Hlen.
Qed.

(** Writing slot [v], [r] or [s] leaves the signing hash as it was. *)
Lemma hash_unsigned_after_write (tx : Transaction) (i : nat) (x : jsval) :
  length (raw tx) = 9%nat -> (6 <= i < 9)%nat ->
  hash {| raw := js_set (raw tx) i x; type := type tx |} (Bool false)
  = hash tx (Bool false).
Proof.
  intros Hlen Hi. rewrite !hash_unsigned_firstn; cbn [raw]; trivial.
  - rewrite firstn_js_set; trivial; lia.
  - rewrite js_set_length. lia.
Qed.

(** C3. [hash] digests the encoding of all nine fields when its argument
    is [true] or left out, and of the first six, [nonce] to [data], when it
    is [false]. *)
Theorem hash_covers_nine_or_six
  (tx : Transaction)
  (f_nonce f_gasPrice f_gasLimit f_to f_value f_data f_v f_r f_s : jsval) :
  raw tx = [f_nonce; f_gasPrice; f_gasLimit; f_to; f_value; f_data; f_v; f_r; f_s] ->
  hash tx Undefined = hash tx (Bool true) /\
  hash tx (Bool true)
  = digest_of_fields
      [f_nonce; f_gasPrice; f_gasLimit; f_to; f_value; f_data; f_v; f_r; f_s] /\
  hash tx (Bool false)
  = digest_of_fields [f_nonce; f_gasPrice; f_gasLimit; f_to; f_value; f_data].
Proof.
  intros Hraw. split; [reflexivity|]. split.
  - unfold hash, digest_of_fields. cbn [truthy]. now rewrite Hraw.
  - rewrite hash_unsigned_firstn by now rewrite Hraw.
    now rewrite Hraw.
Qed.

(** C8. Two transactions with the same first six fields have the same
    signing hash [hash(false)], whatever their [v], [r] and [s]. *)
Theorem unsigned_hash_ignores_signature (tx1 tx2 : Transaction) :
  length (raw tx1) = 9%nat ->
  length (raw tx2) = 9%nat ->
  firstn 6 (raw tx1) = firstn 6 (raw tx2) ->
  hash tx1 (Bool false) = hash tx2 (Bool false).
Proof.
  intros H1 H2 Heq. rewrite !hash_unsigned_firstn by assumption.
  now rewrite Heq.
Qed.

(** *** Sender *)

(** C4. When [recoverPubKey] raises on the stored [r], [s], [v] and the
    signing hash, [getSenderPublicKey] returns the absent key and does
    not raise. [getSenderAddress] does not return the absent address of
    its own: it is whatever [utils.pubToAddress] makes of the absent key,
    and it raises when that call raises. *)
Theorem sender_address_unguarded
  (tx : Transaction) (sig_r sig_s sig_v msgHash : list byte) (e : exn) :
  r tx = Buffer sig_r ->
  s tx = Buffer sig_s ->
  v tx = Buffer sig_v ->
  hash tx (Bool false) = Ok msgHash ->
  recoverPubKey (fromBuffer msgHash)
    (fromBuffer sig_r, fromBuffer sig_s, fromBuffer sig_v - 27)
    (fromBuffer sig_v - 27) = Throw e ->
  getSenderPublicKey tx = Ok None /\
  getSenderAddress tx = utils_pubToAddress None /\
  (forall e', utils_pubToAddress None = Throw e' -> getSenderAddress tx = Throw e').
Proof.
  intros Hr Hs Hv Hh Hrec.
  assert (Hkey : getSenderPublicKey tx = Ok None).
  { unfold getSenderPublicKey. rewrite Hh, Hr, Hs, Hv. cbn [bind fieldInteger bufferToInt].
    now rewrite Hrec. }
  assert (Haddr : getSenderAddress tx = utils_pubToAddress None).
  { unfold getSenderAddress. now rewrite Hkey. }
  split; [exact Hkey|]. split; [exact Haddr|].
  intros e' He'. now rewrite Haddr.
Qed.

(** *** Construction *)

(** C10. Without argument the constructor keeps the defaults: one zero
    byte in [nonce], [gasPrice], [gasLimit], [to], [value] and [data], the
    byte [0x1c] in [v], 32 zero bytes in [r] and in [s], and [type] is
    ['contract']. *)
Theorem default_construction :
  utils_validate fields default_raw = Ok tt ->
  exists tx,
    new_Transaction Undefined = Ok tx /\
    nonce tx = Buffer [x00] /\ gasPrice tx = Buffer [x00] /\
    gasLimit tx = Buffer [x00] /\ to tx = Buffer [x00] /\
    value tx = Buffer [x00] /\ data tx = Buffer [x00] /\
    v tx = Buffer [x1c] /\
    r tx = Buffer (repeat x00 32) /\ s tx = Buffer (repeat x00 32) /\
    length (raw tx) = 9%nat /\
    type tx = contract.
Proof.
  intros Hv. exists default_tx. split.
  - unfold new_Transaction, parse. cbn [truthy andb bind negb].
    change (forEach_store default_raw 0 default_raw) with (Ok default_raw).
    cbn [bind]. change (pad_unsigned default_raw default_raw) with default_raw.
    change (check_count default_raw) with (Ok tt). cbn [bind].
    rewrite Hv. reflexivity.
  - repeat split.
Qed.

(** When the codec decodes the bytes to nine Buffers that
    [utils.validate] accepts, the constructor stores exactly those. *)
Lemma new_Transaction_of_decoded (fs : list (list byte)) (wire : list byte) :
  length fs = 9%nat ->
  rlp_decode (Buffer wire) = Ok (Arr (map Buffer fs)) ->
  utils_validate fields (map Buffer fs) = Ok tt ->
  exists tx', new_Transaction (Buffer wire) = Ok tx' /\ raw tx' = map Buffer fs.
Proof.
  intros Hlen Hdec Hval.
  unfold new_Transaction. cbn [truthy isArray andb negb]. rewrite Hdec.
  cbn [bind truthy negb]. unfold parse.
  rewrite forEach_store_buffers by trivial. cbn [bind].
  unfold check_count, pad_unsigned. rewrite length_map, Hlen.
  cbn [Nat.eqb negb bind]. rewrite Hval. cbn [bind].
  destruct (type_of (js_get (map Buffer fs) 3)) as [ty|err] eqn:Hty.
  - eexists. split; reflexivity.
  - exfalso. do 4 (destruct fs as [|? fs]; try discriminate).
Qed.

(** C6. [serialize] is the encoding of the nine fields, and when the
    codec decodes that encoding back to the nine fields, the constructor
    applied to the bytes builds a record with the same nine fields. *)
Theorem serialize_roundtrip
  (tx : Transaction) (fs : list (list byte)) (wire : list byte) :
  raw tx = map Buffer fs ->
  length fs = 9%nat ->
  rlp_encode (Arr (map Buffer fs)) = Ok wire ->
  rlp_decode (Buffer wire) = Ok (Arr (map Buffer fs)) ->
  utils_validate fields (map Buffer fs) = Ok tt ->
  serialize tx = Ok wire /\
  exists tx', new_Transaction (Buffer wire) = Ok tx' /\ raw tx' = raw tx.
Proof.
  intros Hraw Hlen Henc Hdec Hval. split.
  - unfold serialize. now rewrite Hraw.
  - destruct (new_Transaction_of_decoded fs wire Hlen Hdec Hval) as (tx' & Hnew & Hsame).
    exists tx'. split; [exact Hnew|]. now rewrite Hraw.
Qed.

(** *** The derived type *)

(** Lines 75 and 89 on a Buffer: ['contract'] for the integer zero,
    ['message'] for any other. *)
Lemma type_of_buffer (b : list byte) (ty : tx_type) :
  type_of (Buffer b) = Ok ty ->
  (ty = contract <-> be_value b = 0) /\ (ty = message <-> be_value b <> 0).
Proof.
  unfold type_of. cbn [bufferToInt bind]. rewrite fromBuffer_be_value.
  intros H. injection H as <-.
  destruct (be_value b =? 0) eqn:Hz; cbn [negb].
  - apply Z.eqb_eq in Hz. split; split; intros; try discriminate; congruence.
  - apply Z.eqb_neq in Hz. split; split; intros; try discriminate; congruence.
Qed.

(** The item whose integer decides the type is a Buffer. *)
Lemma type_of_inv (x : jsval) (ty : tx_type) :
  type_of x = Ok ty -> exists b, x = Buffer b.
Proof.
  destruct x; try discriminate. eauto.
Qed.

(** The constructor parses [parsed_data]. *)
Lemma new_Transaction_parsed (d : jsval) :
  new_Transaction d = (x <- parsed_data d ;; parse default_raw x).
Proof.
  unfold new_Transaction, parsed_data.
  destruct (if truthy d && negb (isArray d) then rlp_decode d else Ok d);
    reflexivity.
Qed.

(** C2 (amended). Let [to] be a Buffer of at least one byte: the item
    at index 3 of the array the constructor parses (the array given, the
    one decoded from the bytes given, or the defaults), or what the
    setter of [to] has stored. Then [type] is ['contract'] exactly when
    [to], read as an unsigned big-endian integer, is zero, and
    ['message'] otherwise. *)
Theorem type_follows_integer_of_nonempty_to (tx : Transaction) (b : list byte) :
  b <> [] ->
  (exists d items,
      parsed_data d = Ok (Arr items) /\
      js_get items 3 = Buffer b /\
      new_Transaction d = Ok tx) \/
  (exists tx0 x, set_to tx0 x = Ok tx /\ to tx = Buffer b) ->
  to tx = Buffer b /\
  (type tx = contract <-> be_value b = 0) /\
  (type tx = message <-> be_value b <> 0).
Proof.
  intros _ H.
  assert (Hb : to tx = Buffer b /\ type_of (Buffer b) = Ok (type tx)).
  { destruct H as [(d & items & Hdata & Hitem & Hnew) | (tx0 & x & Hset & Hto)].
    - rewrite new_Transaction_parsed, Hdata in Hnew. cbn [bind] in Hnew.
      apply parse_inv in Hnew as (items' & Heq & Hlen & Hst & _ & Hty).
      injection Heq as <-. rewrite Hitem in Hty. split; [|exact Hty].
      assert (Hnth : nth_error items 3 = Some (Buffer b)).
      { unfold js_get in Hitem. rewrite <- Hitem. apply nth_error_nth'. lia. }
      pose proof (forEach_store_nth _ _ _ _ Hst 3%nat _ Hnth) as Hslot.
      cbn [toItem Nat.add] in Hslot. unfold to. congruence.
    - split; [exact Hto|].
      unfold set_to in Hset.
      destruct (match x with
                | Buffer b0 => Ok b0
                | Str str => Buffer_hex str
                | _ => utils_intToBuffer x
                end) as [c|e]; cbn [bind] in Hset; [|discriminate].
      destruct (negb (Nat.eqb (length c) 20)); [discriminate|].
      rewrite js_get_set_eq in Hset.
      destruct (type_of (Buffer c)) as [ty|e] eqn:Hty; cbn [bind] in Hset; [|discriminate].
      assert (Htx : tx = {| raw := js_set (raw tx0) 3 (Buffer c); type := ty |})
        by congruence.
      rewrite Htx in Hto |- *. unfold to in Hto. cbn [raw type] in Hto |- *.
      rewrite js_get_set_eq in Hto. congruence. }
  destruct Hb as (Hto & Hty).
  apply type_of_buffer in Hty as [Hc Hm]. auto.
Qed.

(** ** Further properties of the constructor *)

Lemma new_Transaction_array (items : list jsval) :
  new_Transaction (Arr items) = parse default_raw (Arr items).
Proof. reflexivity. Qed.

(** The loop over the items ends when every string among them decodes. *)
Lemma forEach_store_total (items : list jsval) :
  Forall (fun d => exists x, toItem d = Ok x) items ->
  forall (self_raw : list jsval) (i : nat),
    exists out, forEach_store self_raw i items = Ok out.
Proof.
  induction 1 as [|d rest [x Hx] _ IH]; intros self_raw i; cbn [forEach_store].
  - eauto.
  - rewrite Hx. cbn [bind]. apply IH.
Qed.

(** An array of any length but nine, the empty one included, is refused
    for its count, and [utils.validate] is not asked: the result is the
    same whatever the validator. *)
Theorem wrong_count_refused (items : list jsval) :
  Forall (fun d => exists x, toItem d = Ok x) items ->
  length items <> 9%nat ->
  new_Transaction (Arr items) = Throw InvalidFieldCount.
Proof.
  intros Hitems Hlen. rewrite new_Transaction_array.
  destruct (forEach_store_total items Hitems default_raw 0) as [out Hout].
  now apply (parse_count _ _ out).
Qed.

(** For an array whose item at index 3 is a Buffer, every slot of the
    transaction built from it holds the item given at its index, a hex
    string replaced by its bytes. (The arrays of the model have no
    holes.) *)
Theorem constructed_slots_are_items
  (items : list jsval) (b : list byte) (tx : Transaction) :
  js_get items 3 = Buffer b ->
  new_Transaction (Arr items) = Ok tx ->
  length (raw tx) = length items /\
  to tx = Buffer b /\
  forall (j : nat) (d : jsval),
    nth_error items j = Some d -> toItem d = Ok (js_get (raw tx) j).
Proof.
  rewrite new_Transaction_array. intros Hitem H.
  apply parse_inv in H as (items' & Heq & Hlen & Hst & _).
  injection Heq as <-.
  assert (Hall : forall (j : nat) (d : jsval),
             nth_error items j = Some d -> toItem d = Ok (js_get (raw tx) j)).
  { intros j d Hj. exact (forEach_store_nth _ _ _ _ Hst j d Hj). }
  split; [|split; [|exact Hall]].
  - apply forEach_store_length in Hst. rewrite Hst.
    destruct items; [discriminate|]. rewrite Hlen. reflexivity.
  - assert (Hnth : nth_error items 3 = Some (Buffer b)).
    { unfold js_get in Hitem. rewrite <- Hitem. apply nth_error_nth'. lia. }
    apply Hall in Hnth. cbn [toItem] in Hnth. unfold to. congruence.
Qed.

(** A falsy argument ([null], [0], the empty string, [false]) is the
    missing argument: the defaults are parsed. *)
Theorem falsy_argument_is_no_argument (d : jsval) :
  truthy d = false -> new_Transaction d = new_Transaction Undefined.
Proof.
  intros Hd. unfold new_Transaction. rewrite Hd. cbn [andb bind truthy negb].
  now rewrite Hd.
Qed.

(** Constructing from something that is not an array is constructing
    from the array it decodes to. *)
Theorem construct_from_bytes_is_construct_from_decoded
  (d : jsval) (items : list jsval) :
  truthy d = true -> isArray d = false ->
  rlp_decode d = Ok (Arr items) ->
  new_Transaction d = new_Transaction (Arr items).
Proof.
  intros Ht Ha Hdec. unfold new_Transaction at 1.
  rewrite Ht, Ha. cbn [andb negb]. rewrite Hdec. reflexivity.
Qed.

(** Nine Buffers that [utils.validate] accepts are stored as they are;
    the transaction serializes to their encoding and its signing hash
    digests the first six. *)
Theorem construct_from_nine_buffers (fs : list (list byte)) :
  length fs = 9%nat ->
  utils_validate fields (map Buffer fs) = Ok tt ->
  exists tx,
    new_Transaction (Arr (map Buffer fs)) = Ok tx /\
    raw tx = map Buffer fs /\
    serialize tx = rlp_encode (Arr (map Buffer fs)) /\
    hash tx (Bool false) = digest_of_fields (map Buffer (firstn 6 fs)).
Proof.
  intros Hlen Hval. rewrite new_Transaction_array. unfold parse.
  rewrite forEach_store_buffers by trivial. cbn [bind].
  unfold check_count, pad_unsigned. rewrite length_map, Hlen.
  cbn [Nat.eqb negb bind]. rewrite Hval. cbn [bind].
  destruct (type_of (js_get (map Buffer fs) 3)) as [ty|err] eqn:Hty.
  - eexists. split; [reflexivity|]. cbn [raw]. split; [reflexivity|].
    split; [reflexivity|].
    rewrite hash_unsigned_firstn by (cbn [raw]; now rewrite length_map).
    cbn [raw]. now rewrite firstn_map.
  - exfalso. do 4 (destruct fs as [|? fs]; try discriminate).
Qed.

(** Whatever the constructor and the setter of [to] have done, the
    transaction has nine slots. *)
Theorem reachable_nine_slots (tx : Transaction) :
  reachable tx -> length (raw tx) = 9%nat.
Proof.
  induction 1 as [d tx Hnew | tx tx' x _ IH Hset].
  - exact (new_Transaction_length d tx Hnew).
  - exact (set_to_length tx tx' x Hset IH).
Qed.


(** ** Further properties of the setter of [to] *)

Lemma js_set_set (i : nat) :
  forall (a : list jsval) (x y : jsval),
    js_set (js_set a i x) i y = js_set a i y.
Proof.
  induction i as [|i IH]; intros [|h t] x y; simpl; try reflexivity.
  - now rewrite IH.
  - now rewrite IH.
Qed.

(** What a setter call that returns has done. *)
Lemma set_to_inv (tx tx' : Transaction) (x : jsval) :
  set_to tx x = Ok tx' ->
  exists b,
    length b = 20%nat /\
    raw tx' = js_set (raw tx) 3 (Buffer b) /\
    type_of (Buffer b) = Ok (type tx').
Proof.
  unfold set_to. intros H.
  destruct (match x with
            | Buffer b => Ok b
            | Str str => Buffer_hex str
            | _ => utils_intToBuffer x
            end) as [b|e]; cbn [bind] in H; [|discriminate].
  destruct (Nat.eqb (length b) 20) eqn:Hlen; cbn [negb] in H; [|discriminate].
  apply Nat.eqb_eq in Hlen.
  rewrite js_get_set_eq in H.
  destruct (type_of (Buffer b)) as [ty|e] eqn:Hty; cbn [bind] in H; [|discriminate].
  assert (Htx : tx' = {| raw := js_set (raw tx) 3 (Buffer b); type := ty |})
    by congruence.
  exists b. rewrite Htx. cbn [raw type]. auto.
Qed.

(** The setter takes a Buffer of twenty bytes, and raises the assertion
    error on a Buffer of any other length, the empty one included. *)
Theorem set_to_takes_twenty_bytes (tx : Transaction) (b : list byte) :
  (length b = 20%nat ->
   exists tx', set_to tx (Buffer b) = Ok tx' /\ to tx' = Buffer b) /\
  (length b <> 20%nat ->
   set_to tx (Buffer b)
   = Throw (AssertionError "The field `to` must have byte length of 20")).
Proof.
  unfold set_to. cbn [bind]. split; intros Hlen.
  - rewrite Hlen. cbn [Nat.eqb negb]. rewrite js_get_set_eq.
    unfold type_of. cbn [bufferToInt bind]. eexists. split; [reflexivity|].
    unfold to. cbn [raw]. apply js_get_set_eq.
  - apply Nat.eqb_neq in Hlen. now rewrite Hlen.
Qed.

(** A setter call that returns has stored twenty bytes in [to] and left
    every other slot as it was. *)
Theorem set_to_changes_to_only (tx tx' : Transaction) (x : jsval) :
  set_to tx x = Ok tx' ->
  (exists b, to tx' = Buffer b /\ length b = 20%nat) /\
  nonce tx' = nonce tx /\ gasPrice tx' = gasPrice tx /\
  gasLimit tx' = gasLimit tx /\ value tx' = value tx /\
  data tx' = data tx /\ v tx' = v tx /\ r tx' = r tx /\ s tx' = s tx.
Proof.
  intros H. apply set_to_inv in H as (b & Hlen & Hraw & _).
  unfold to, nonce, gasPrice, gasLimit, value, data, v, r, s. rewrite Hraw.
  split.
  - exists b. split; [apply js_get_set_eq | exact Hlen].
  - repeat split; apply js_get_set_ne; discriminate.
Qed.

(** The last write wins: after a setter call that returned, a second
    call does what it would have done on the transaction before the
    first. *)
Theorem set_to_last_write_wins (tx tx1 : Transaction) (x y : jsval) :
  set_to tx x = Ok tx1 -> set_to tx1 y = set_to tx y.
Proof.
  intros H. apply set_to_inv in H as (b & _ & Hraw & _).
  unfold set_to. rewrite Hraw.
  destruct (match y with
            | Buffer b0 => Ok b0
            | Str str => Buffer_hex str
            | _ => utils_intToBuffer y
            end) as [c|e]; cbn [bind]; [|reflexivity].
  now rewrite js_set_set.
Qed.

(** ** Further properties of [hash] *)

(** [hash] reads its argument as a truth value: [null], [0], [false] and
    the empty string give the signing hash, while a missing argument
    gives the hash of all nine fields. *)
Theorem hash_reads_truth_value (tx : Transaction) (signature : jsval) :
  signature <> Undefined ->
  hash tx signature = hash tx (Bool (truthy signature)).
Proof.
  intros Hs. unfold hash.
  destruct signature; try congruence; reflexivity.
Qed.

(** The hash of a transaction, as [hash()] gives it, is the digest of
    its serialization. *)
Theorem hash_is_digest_of_serialization (tx : Transaction) (wire : list byte) :
  serialize tx = Ok wire ->
  hash tx Undefined = Ok (SHA3_256 wire) /\
  hash tx (Bool true) = Ok (SHA3_256 wire).
Proof.
  unfold serialize, hash. cbn [truthy]. intros ->. split; reflexivity.
Qed.

(** ** Further properties of the fees *)

(** With a positive fee per byte, the payloads that cost nothing are the
    empty one and the single zero byte, and no payload costs more than
    its length times the fee. *)
Theorem getDataFee_zero_iff (tx : Transaction) (payload : list byte) :
  data tx = Buffer payload ->
  0 < getFee "TXDATA" ->
  exists fee,
    getDataFee tx = Ok fee /\
    (fee = 0 <-> payload = [] \/ payload = [x00]) /\
    0 <= fee <= Z.of_nat (length payload) * getFee "TXDATA".
Proof.
  intros Hdata Hfee. unfold getDataFee. unfold data in Hdata. rewrite Hdata.
  destruct (is_zero_sentinel payload) eqn:Hz.
  - apply is_zero_sentinel_iff in Hz. subst payload.
    exists 0. split; [reflexivity|]. split; [split; auto|].
    change (Z.of_nat (length [x00])) with 1. lia.
  - eexists. split; [reflexivity|]. split; [|nia].
    split.
    + intros H0. left. destruct payload; [reflexivity|].
      cbn [length] in H0. nia.
    + intros [-> | ->]; [reflexivity|].
      now rewrite (proj2 (is_zero_sentinel_iff [x00]) eq_refl) in Hz.
Qed.

(** A payload at least as long costs at least as much, unless the longer
    one is the single zero byte. *)
Theorem getDataFee_monotone
  (tx1 tx2 : Transaction) (payload1 payload2 : list byte) :
  data tx1 = Buffer payload1 ->
  data tx2 = Buffer payload2 ->
  0 <= getFee "TXDATA" ->
  payload2 <> [x00] ->
  (length payload1 <= length payload2)%nat ->
  exists fee1 fee2,
    getDataFee tx1 = Ok fee1 /\ getDataFee tx2 = Ok fee2 /\ fee1 <= fee2.
Proof.
  intros H1 H2 Hfee Hns Hlen. unfold getDataFee. unfold data in H1, H2.
  rewrite H1, H2.
  destruct (is_zero_sentinel payload2) eqn:Hz2.
  - apply is_zero_sentinel_iff in Hz2. contradiction.
  - destruct (is_zero_sentinel payload1); do 2 eexists;
      (split; [reflexivity|]); (split; [reflexivity|]); nia.
Qed.

(** A transaction that validates has a gas limit of at least the
    transaction fee, and of at least that plus the fee of each payload
    byte when the payload is not the single zero byte. *)
Theorem validate_true_covers_fees
  (tx : Transaction) (limit payload : list byte) :
  gasLimit tx = Buffer limit ->
  data tx = Buffer payload ->
  0 <= getFee "TXDATA" ->
  validate tx = Ok true ->
  verifySignature tx = Ok true /\
  getFee "TRANSACTION" <= be_value limit /\
  (payload <> [x00] ->
   Z.of_nat (length payload) * getFee "TXDATA" + getFee "TRANSACTION"
   <= be_value limit).
Proof.
  intros Hl Hd Hfee. unfold validate, getBaseFee, getDataFee.
  unfold data in Hd. rewrite Hd, Hl.
  destruct (verifySignature tx) as [[|]|e]; cbn [bind]; try discriminate.
  destruct (is_zero_sentinel payload) eqn:Hz; cbn [bind bufferToInt];
    rewrite fromBuffer_be_value; intros H; injection H as H;
    apply Z.leb_le in H.
  - apply is_zero_sentinel_iff in Hz. repeat split; try lia. congruence.
  - repeat split; intros; lia.
Qed.

(** ** Further properties of [getUpfrontCost] *)

Lemma be_value_leading_zeros (k : nat) (buf : list byte) :
  be_value (repeat x00 k ++ buf) = be_value buf.
Proof.
  induction k as [|k IH]; [reflexivity|].
  cbn [repeat app be_value]. rewrite IH. reflexivity.
Qed.

(** Zero bytes in front of [gasLimit], [gasPrice] or [value] do not
    change the upfront cost. *)
Theorem getUpfrontCost_ignores_leading_zeros
  (tx tx' : Transaction) (limit price val : list byte) (kl kp kv : nat) :
  gasLimit tx = Buffer limit ->
  gasPrice tx = Buffer price ->
  value tx = Buffer val ->
  gasLimit tx' = Buffer (repeat x00 kl ++ limit) ->
  gasPrice tx' = Buffer (repeat x00 kp ++ price) ->
  value tx' = Buffer (repeat x00 kv ++ val) ->
  getUpfrontCost tx' = getUpfrontCost tx.
Proof.
  intros Hl Hp Hv Hl' Hp' Hv'. unfold getUpfrontCost.
  rewrite Hl, Hp, Hv, Hl', Hp', Hv'. cbn [fieldInteger bind].
  now rewrite !fromBuffer_be_value, !be_value_leading_zeros.
Qed.

(** The upfront cost is never negative and never under the value sent;
    it is the value when the gas limit or the gas price is zero. *)
Theorem getUpfrontCost_at_least_value
  (tx : Transaction) (limit price val : list byte) :
  gasLimit tx = Buffer limit ->
  gasPrice tx = Buffer price ->
  value tx = Buffer val ->
  exists cost,
    getUpfrontCost tx = Ok cost /\
    0 <= be_value val <= cost /\
    (be_value limit = 0 \/ be_value price = 0 -> cost = be_value val).
Proof.
  intros Hl Hp Hv. unfold getUpfrontCost. rewrite Hl, Hp, Hv.
  cbn [fieldInteger bind]. rewrite !fromBuffer_be_value.
  eexists. split; [reflexivity|].
  pose proof (be_value_range limit). pose proof (be_value_range price).
  pose proof (be_value_range val).
  split; [nia|]. intros [-> | ->]; lia.
Qed.

(** ** Further properties of the sender *)

(** On Buffers in [r], [s] and [v], [getSenderPublicKey] does not raise:
    it returns the key that [recoverPubKey] returns for the signing hash
    and the recovery index [v - 27], and the absent key exactly when
    [recoverPubKey] raises. *)
Theorem getSenderPublicKey_follows_recovery
  (tx : Transaction) (sig_r sig_s sig_v msgHash : list byte) :
  r tx = Buffer sig_r ->
  s tx = Buffer sig_s ->
  v tx = Buffer sig_v ->
  hash tx (Bool false) = Ok msgHash ->
  let recovered :=
    recoverPubKey (be_value msgHash)
      (be_value sig_r, be_value sig_s, be_value sig_v - 27)
      (be_value sig_v - 27) in
  exists key,
    getSenderPublicKey tx = Ok key /\
    (forall k, key = Some k <-> recovered = Ok k) /\
    (key = None <-> exists e, recovered = Throw e).
Proof.
  intros Hr Hs Hv Hh recovered. unfold getSenderPublicKey.
  rewrite Hh, Hr, Hs, Hv. cbn [bind fieldInteger bufferToInt].
  rewrite !fromBuffer_be_value. fold recovered.
  eexists. split; [reflexivity|].
  destruct recovered as [k|e]; cbn [try_catch]; split.
  - intros k'. split; congruence.
  - split; [discriminate | intros [e He]; discriminate].
  - intros k'. split; discriminate.
  - split; eauto.
Qed.


End TransactionJS.

(** ** The reference codec

    The round trip that [serialize_roundtrip] asks of the codec holds of
    the reference codec on every list of byte strings. *)

Lemma to_N_byte_of_N (n : N) : (n < 256)%N -> Byte.to_N (Ref.byte_of_N n) = n.
Proof.
  intros Hn. unfold Ref.byte_of_N.
  destruct (Byte.of_N n) as [b|] eqn:Hb.
  - now apply Byte.to_of_N.
  - apply Byte.of_N_None_iff in Hb. lia.
Qed.

Lemma be_bytes_value (fuel : nat) :
  forall (n : N) (acc : list byte),
    (n < 256 ^ N.of_nat fuel)%N ->
    be_value (Ref.be_bytes fuel n acc)
    = Z.of_N n * 256 ^ Z.of_nat (length acc) + be_value acc.
Proof.
  induction fuel as [|fuel IH]; intros n acc Hn.
  - simpl in *. assert (n = 0%N) by lia. subst. lia.
  - cbn [Ref.be_bytes]. destruct (N.eqb_spec n 0) as [->|Hnz]; [lia|].
    rewrite IH.
    + cbn [be_value length]. unfold byte_val.
      rewrite to_N_byte_of_N by (apply N.mod_lt; lia).
      rewrite Nat2Z.inj_succ, Z.pow_succ_r by lia.
      rewrite N2Z.inj_div, N2Z.inj_mod.
      pose proof (Z.div_mod (Z.of_N n) 256 ltac:(lia)) as Hdm.
      change (Z.of_N 256) with 256. nia.
    + rewrite Nat2N.inj_succ, N.pow_succ_r' in Hn.
      apply N.Div0.div_lt_upper_bound. lia.
Qed.

Lemma be_bytes_length_ge (fuel : nat) :
  forall (n : N) (acc : list byte),
    (length acc <= length (Ref.be_bytes fuel n acc))%nat.
Proof.
  induction fuel as [|fuel IH]; intros n acc; cbn [Ref.be_bytes]; [lia|].
  destruct (n =? 0)%N; [lia|].
  specialize (IH (n / 256)%N (Ref.byte_of_N (n mod 256) :: acc)).
  simpl in IH. lia.
Qed.

Lemma be_bytes_length_le (fuel : nat) :
  forall (n : N) (acc : list byte),
    (length (Ref.be_bytes fuel n acc) <= fuel + length acc)%nat.
Proof.
  induction fuel as [|fuel IH]; intros n acc; cbn [Ref.be_bytes]; [lia|].
  destruct (n =? 0)%N; [lia|].
  specialize (IH (n / 256)%N (Ref.byte_of_N (n mod 256) :: acc)).
  simpl in IH. lia.
Qed.

Lemma be_bytes_nonempty (fuel : nat) (n : N) :
  n <> 0%N -> (1 <= length (Ref.be_bytes (S fuel) n []))%nat.
Proof.
  intros Hn. cbn [Ref.be_bytes]. destruct (N.eqb_spec n 0); [contradiction|].
  pose proof (be_bytes_length_ge fuel (n / 256)%N [Ref.byte_of_N (n mod 256)]) as H.
  simpl in H. lia.
Qed.

Lemma firstn_length_app {A : Type} (a rest : list A) :
  firstn (length a) (a ++ rest) = a.
Proof.
  induction a as [|x a IH]; simpl; [reflexivity | now rewrite IH].
Qed.

Lemma skipn_length_app {A : Type} (a rest : list A) :
  skipn (length a) (a ++ rest) = rest.
Proof.
  induction a as [|x a IH]; simpl; [reflexivity | exact IH].
Qed.

Lemma take_app (a rest : list byte) :
  Ref.take (N.of_nat (length a)) (a ++ rest) = Ok (a, rest).
Proof.
  unfold Ref.take. rewrite Nat2N.id.
  assert (Hle : (length a <=? length (a ++ rest))%nat = true).
  { apply Nat.leb_le. rewrite length_app. lia. }
  rewrite Hle. now rewrite firstn_length_app, skipn_length_app.
Qed.

(** A length of more than 55 is written on one to eight bytes and read
    back. *)
Lemma take_long_app (a rest : list byte) :
  (N.of_nat (length a) < 256 ^ 8)%N ->
  Ref.take_long (N.of_nat (length (Ref.be_bytes 8 (N.of_nat (length a)) [])))
    (Ref.be_bytes 8 (N.of_nat (length a)) [] ++ a ++ rest)
  = Ok (a, rest).
Proof.
  intros Hlen. unfold Ref.take_long. rewrite take_app. cbn [bind fst snd].
  rewrite fromBuffer_be_value. rewrite be_bytes_value by exact Hlen.
  cbn [length be_value]. rewrite Z.mul_1_r, Z.add_0_r, N2Z.id.
  apply take_app.
Qed.

Ltac decide_header :=
  repeat match goal with
         | |- context [(?a <? ?b)%N] => destruct (N.ltb_spec a b); try lia
         | |- context [(?a <=? ?b)%N] => destruct (N.leb_spec a b); try lia
         end.

Lemma long_length_bytes (n : N) :
  (55 < n)%N ->
  (1 <= length (Ref.be_bytes 8 n []) <= 8)%nat.
Proof.
  intros Hn. split.
  - apply be_bytes_nonempty. lia.
  - pose proof (be_bytes_length_le 8 n []) as H. simpl in H. exact H.
Qed.

(** The header of a byte string, then the string, decodes to the string. *)
Lemma decode_item_header_string (fuel : nat) (b rest : list byte) :
  (N.of_nat (length b) < 256 ^ 8)%N ->
  Ref.decode_item (S fuel) (Ref.rlp_header 128 183 b ++ b ++ rest)
  = Ok (Buffer b, rest).
Proof.
  intros Hlen. unfold Ref.rlp_header.
  destruct (N.leb_spec (N.of_nat (length b)) 55) as [Hshort|Hlong].
  - cbn [app Ref.decode_item].
    rewrite to_N_byte_of_N by lia.
    decide_header.
    replace (128 + N.of_nat (length b) - 128)%N with (N.of_nat (length b)) by lia.
    now rewrite take_app.
  - pose proof (long_length_bytes _ Hlong) as Hll.
    cbn [app Ref.decode_item].
    rewrite to_N_byte_of_N by lia.
    decide_header.
    replace (183 + N.of_nat (length (Ref.be_bytes 8 (N.of_nat (length b)) [])) - 183)%N
      with (N.of_nat (length (Ref.be_bytes 8 (N.of_nat (length b)) []))) by lia.
    now rewrite take_long_app.
Qed.

Lemma rlp_string_cases (b : list byte) :
  (exists c, b = [c] /\ (Byte.to_N c < 128)%N /\ Ref.rlp_string b = [c]) \/
  Ref.rlp_string b = Ref.rlp_header 128 183 b ++ b.
Proof.
  destruct b as [|c [|d b]]; try (right; reflexivity).
  unfold Ref.rlp_string. destruct (N.ltb_spec (Byte.to_N c) 128).
  - left. eauto.
  - right. reflexivity.
Qed.

(** An encoded byte string, followed by anything, decodes to the string
    and leaves what follows. *)
Lemma decode_item_string (fuel : nat) (b rest : list byte) :
  (N.of_nat (length b) < 256 ^ 8)%N ->
  Ref.decode_item (S fuel) (Ref.rlp_string b ++ rest) = Ok (Buffer b, rest).
Proof.
  intros Hlen. destruct (rlp_string_cases b) as [(c & -> & Hc & ->) | ->].
  - cbn [app Ref.decode_item]. apply N.ltb_lt in Hc. now rewrite Hc.
  - rewrite <- app_assoc. now apply decode_item_header_string.
Qed.

Lemma rlp_string_length (b : list byte) :
  (1 <= length (Ref.rlp_string b))%nat /\
  (length b <= length (Ref.rlp_string b))%nat.
Proof.
  destruct (rlp_string_cases b) as [(c & -> & _ & ->) | ->].
  - simpl. lia.
  - rewrite length_app. unfold Ref.rlp_header.
    destruct (N.of_nat (length b) <=? 55)%N; simpl; lia.
Qed.

Lemma payload_length (fs : list (list byte)) :
  (length fs <= length (Ref.payload fs))%nat /\
  Forall (fun b => length b <= length (Ref.payload fs))%nat fs.
Proof.
  unfold Ref.payload. induction fs as [|b fs [IHn IHf]]; cbn [map concat length].
  - split; [lia | constructor].
  - rewrite length_app. pose proof (rlp_string_length b) as [H1 Hb]. split; [lia|].
    constructor; [lia|].
    eapply Forall_impl; [|exact IHf]. cbn beta. intros; lia.
Qed.

Lemma decode_list_step (fuel : nat) (input : list byte) :
  input <> [] ->
  Ref.decode_list (S fuel) input
  = (xr <- Ref.decode_item fuel input ;;
     xs <- Ref.decode_list fuel (snd xr) ;;
     Ok (fst xr :: xs)).
Proof.
  destruct input; [congruence | reflexivity].
Qed.

(** The payload of a list of byte strings decodes to the strings. *)
Lemma decode_list_payload (fs : list (list byte)) :
  forall fuel,
    (length fs < fuel)%nat ->
    Forall (fun b => N.of_nat (length b) < 256 ^ 8)%N fs ->
    Ref.decode_list fuel (Ref.payload fs) = Ok (map Buffer fs).
Proof.
  unfold Ref.payload.
  induction fs as [|b fs IH]; intros fuel Hfuel Hsmall.
  - destruct fuel; [lia | reflexivity].
  - inversion Hsmall as [|? ? Hb Hrest]; subst.
    destruct fuel as [|[|fuel]]; cbn [length] in Hfuel; try lia.
    cbn [map concat].
    rewrite decode_list_step.
    + rewrite decode_item_string by exact Hb. cbn [bind fst snd].
      rewrite IH by (trivial; lia). reflexivity.
    + pose proof (rlp_string_length b) as [H1 _].
      destruct (Ref.rlp_string b); simpl in H1; [lia | discriminate].
Qed.

Lemma encode_all_buffers (fs : list (list byte)) :
  Ref.encode_all Ref.rlp_encode (map Buffer fs) = Ok (Ref.payload fs).
Proof.
  unfold Ref.payload. induction fs as [|b fs IH]; [reflexivity|].
  cbn [map Ref.encode_all concat] in *. rewrite IH. reflexivity.
Qed.

(** The header of a list, then its payload, decodes as the items of the
    payload do. *)
Lemma decode_item_header_list (fuel : nat) (p : list byte) :
  (N.of_nat (length p) < 256 ^ 8)%N ->
  Ref.decode_item (S fuel) (Ref.rlp_header 192 247 p ++ p)
  = (items <- Ref.decode_list fuel p ;; Ok (Arr items, [])).
Proof.
  intros Hlen. rewrite <- (app_nil_r p) at 2. unfold Ref.rlp_header.
  destruct (N.leb_spec (N.of_nat (length p)) 55) as [Hshort|Hlong].
  - cbn [app Ref.decode_item].
    rewrite to_N_byte_of_N by lia.
    decide_header.
    replace (192 + N.of_nat (length p) - 192)%N with (N.of_nat (length p)) by lia.
    now rewrite take_app.
  - pose proof (long_length_bytes _ Hlong) as Hll.
    cbn [app Ref.decode_item].
    rewrite to_N_byte_of_N by lia.
    decide_header.
    replace (247 + N.of_nat (length (Ref.be_bytes 8 (N.of_nat (length p)) [])) - 247)%N
      with (N.of_nat (length (Ref.be_bytes 8 (N.of_nat (length p)) []))) by lia.
    now rewrite take_long_app.
Qed.

(** The reference codec decodes what it encodes, on a list of byte
    strings whose payload is shorter than [256 ^ 8] bytes, the longest a
    header can announce. *)
Lemma reference_codec_roundtrip (fs : list (list byte)) :
  (N.of_nat (length (Ref.payload fs)) < 256 ^ 8)%N ->
  exists wire,
    Ref.rlp_encode (Arr (map Buffer fs)) = Ok wire /\
    Ref.rlp_decode (Buffer wire) = Ok (Arr (map Buffer fs)).
Proof.
  intros Hlen. eexists. split.
  - cbn [Ref.rlp_encode]. rewrite encode_all_buffers. reflexivity.
  - unfold Ref.rlp_decode.
    replace (2 * length (Ref.rlp_header 192 247 (Ref.payload fs) ++ Ref.payload fs) + 2)%nat
      with (S (2 * length (Ref.rlp_header 192 247 (Ref.payload fs) ++ Ref.payload fs) + 1))
      by lia.
    rewrite decode_item_header_list by exact Hlen.
    pose proof (payload_length fs) as [Hn Hf].
    rewrite decode_list_payload.
    + reflexivity.
    + rewrite length_app. lia.
    + eapply Forall_impl; [|exact Hf]. cbn beta. intros b Hb. lia.
Qed.

(** With the reference codec and a validator that accepts, every record
    of nine byte strings is rebuilt from its serialization. *)
Lemma reference_serialize_roundtrip (tx : Transaction) (fs : list (list byte)) :
  raw tx = map Buffer fs ->
  length fs = 9%nat ->
  (N.of_nat (length (Ref.payload fs)) < 256 ^ 8)%N ->
  exists wire tx',
    serialize Ref.rlp_encode tx = Ok wire /\
    new_Transaction Ref.Buffer_hex Ref.rlp_decode Ref.validate (Buffer wire) = Ok tx' /\
    raw tx' = raw tx.
Proof.
  intros Hraw Hlen Hsize.
  destruct (reference_codec_roundtrip fs Hsize) as (wire & Henc & Hdec).
  destruct (new_Transaction_of_decoded Ref.Buffer_hex Ref.rlp_decode Ref.validate
              fs wire Hlen Hdec eq_refl) as (tx' & Hnew & Hsame).
  exists wire, tx'. unfold serialize. rewrite Hraw. auto.
Qed.

(** ** The properties on concrete transactions *)

Lemma getDataFee_sentinel_or_length_witness :
  data default_tx = Buffer [x00] /\
  getDataFee Ref.getFee default_tx = Ok 0 /\
  data sample_tx = Buffer [xca; xfe] /\
  getDataFee Ref.getFee sample_tx = Ok 10.
Proof.
  refine (conj eq_refl (conj _ (conj eq_refl _))).
  - exact (proj1 (getDataFee_sentinel_or_length Ref.getFee default_tx [x00] eq_refl)
             eq_refl).
  - apply (proj2 (getDataFee_sentinel_or_length Ref.getFee sample_tx [xca; xfe] eq_refl)).
    discriminate.
Defined.

Lemma getUpfrontCost_exact_witness :
  gasLimit sample_tx = Buffer [x07; xd0] /\
  gasPrice sample_tx = Buffer [x0a] /\
  value sample_tx = Buffer [x01; x00] /\
  getUpfrontCost sample_tx = Ok (2000 * 10 + 256) /\
  getUpfrontCost wide_tx = Ok ((2 ^ 264 - 1) * (2 ^ 264 - 1) + (2 ^ 264 - 1)).
Proof.
  refine (conj eq_refl (conj eq_refl (conj eq_refl (conj _ _)))).
  - exact (getUpfrontCost_exact sample_tx [x07; xd0] [x0a] [x01; x00]
             eq_refl eq_refl eq_refl).
  - exact (getUpfrontCost_exact wide_tx (repeat xff 33) (repeat xff 33) (repeat xff 33)
             eq_refl eq_refl eq_refl).
Defined.

Lemma validate_iff_signature_and_gas_witness :
  gasLimit sample_tx = Buffer [x07; xd0] /\
  data sample_tx = Buffer [xca; xfe] /\
  exists fee,
    getBaseFee Ref.getFee sample_tx = Ok fee /\
    (validate Ref.getFee Ref.verifySignature sample_tx = Ok true <->
     Ref.verifySignature sample_tx = Ok true /\ fee <= be_value [x07; xd0]) /\
    (be_value [x07; xd0] < fee ->
     forall verified, Ref.verifySignature sample_tx = Ok verified ->
                      validate Ref.getFee Ref.verifySignature sample_tx = Ok false).
Proof.
  refine (conj eq_refl (conj eq_refl _)).
  exact (validate_iff_signature_and_gas Ref.getFee Ref.verifySignature sample_tx
           [x07; xd0] [xca; xfe] eq_refl eq_refl).
Defined.

Lemma hash_covers_nine_or_six_witness :
  raw sample_tx = map Buffer sample_fields /\
  hash Ref.rlp_encode Ref.digest sample_tx Undefined
  = hash Ref.rlp_encode Ref.digest sample_tx (Bool true) /\
  hash Ref.rlp_encode Ref.digest sample_tx (Bool true)
  = digest_of_fields Ref.rlp_encode Ref.digest sample_raw /\
  hash Ref.rlp_encode Ref.digest sample_tx (Bool false)
  = digest_of_fields Ref.rlp_encode Ref.digest (firstn 6 sample_raw).
Proof.
  refine (conj eq_refl _).
  exact (hash_covers_nine_or_six Ref.rlp_encode Ref.digest sample_tx
           _ _ _ _ _ _ _ _ _ eq_refl).
Defined.

Lemma unsigned_hash_ignores_signature_witness :
  length (raw sample_tx) = 9%nat /\
  length (raw unsigned_sample_tx) = 9%nat /\
  firstn 6 (raw sample_tx) = firstn 6 (raw unsigned_sample_tx) /\
  raw sample_tx <> raw unsigned_sample_tx /\
  hash Ref.rlp_encode Ref.digest sample_tx (Bool false)
  = hash Ref.rlp_encode Ref.digest unsigned_sample_tx (Bool false).
Proof.
  refine (conj eq_refl (conj eq_refl (conj eq_refl (conj _ _)))).
  - discriminate.
  - exact (unsigned_hash_ignores_signature Ref.rlp_encode Ref.digest
             sample_tx unsigned_sample_tx eq_refl eq_refl eq_refl).
Defined.

Lemma sender_address_unguarded_witness :
  r default_tx = Buffer zero256 /\
  s default_tx = Buffer zero256 /\
  v default_tx = Buffer [x1c] /\
  hash Ref.rlp_encode Ref.digest default_tx (Bool false) = Ok default_signing_hash /\
  Ref.recoverPubKey (fromBuffer default_signing_hash)
    (fromBuffer zero256, fromBuffer zero256, fromBuffer [x1c] - 27)
    (fromBuffer [x1c] - 27) = Throw (AssertionError "Invalid r value") /\
  getSenderPublicKey Ref.rlp_encode Ref.digest Ref.recoverPubKey default_tx = Ok None /\
  getSenderAddress Ref.rlp_encode Ref.digest Ref.recoverPubKey Ref.pubToAddress default_tx
  = Throw TypeError.
Proof.
  refine (conj eq_refl (conj eq_refl (conj eq_refl (conj eq_refl (conj eq_refl _))))).
  pose proof (sender_address_unguarded
                Ref.rlp_encode Ref.digest Ref.recoverPubKey Ref.pubToAddress
                default_tx zero256 zero256 [x1c] default_signing_hash
                (AssertionError "Invalid r value")
                eq_refl eq_refl eq_refl eq_refl eq_refl) as (Hkey & _ & Hraise).
  exact (conj Hkey (Hraise TypeError eq_refl)).
Defined.

Lemma default_construction_witness :
  Ref.validate fields default_raw = Ok tt /\
  exists tx,
    new_Transaction Ref.Buffer_hex Ref.rlp_decode Ref.validate Undefined = Ok tx /\
    nonce tx = Buffer [x00] /\ gasPrice tx = Buffer [x00] /\
    gasLimit tx = Buffer [x00] /\ to tx = Buffer [x00] /\
    value tx = Buffer [x00] /\ data tx = Buffer [x00] /\
    v tx = Buffer [x1c] /\
    r tx = Buffer (repeat x00 32) /\ s tx = Buffer (repeat x00 32) /\
    length (raw tx) = 9%nat /\
    type tx = contract.
Proof.
  refine (conj eq_refl _).
  exact (default_construction Ref.Buffer_hex Ref.rlp_decode Ref.validate eq_refl).
Defined.

Lemma serialize_roundtrip_witness :
  raw sample_tx = map Buffer sample_fields /\
  length sample_fields = 9%nat /\
  Ref.rlp_encode (Arr (map Buffer sample_fields)) = Ok sample_wire /\
  Ref.rlp_decode (Buffer sample_wire) = Ok (Arr (map Buffer sample_fields)) /\
  Ref.validate fields (map Buffer sample_fields) = Ok tt /\
  serialize Ref.rlp_encode sample_tx = Ok sample_wire /\
  exists tx',
    new_Transaction Ref.Buffer_hex Ref.rlp_decode Ref.validate (Buffer sample_wire)
    = Ok tx' /\
    raw tx' = raw sample_tx.
Proof.
  refine (conj eq_refl (conj eq_refl (conj eq_refl (conj eq_refl (conj eq_refl _))))).
  exact (serialize_roundtrip Ref.Buffer_hex Ref.rlp_encode Ref.rlp_decode Ref.validate
           sample_tx sample_fields sample_wire
           eq_refl eq_refl eq_refl eq_refl eq_refl).
Defined.

Lemma type_follows_integer_of_nonempty_to_witness :
  ([x00] <> [] /\
   parsed_data Ref.rlp_decode Undefined = Ok (Arr default_raw) /\
   js_get default_raw 3 = Buffer [x00] /\
   new_Transaction Ref.Buffer_hex Ref.rlp_decode Ref.validate Undefined = Ok default_tx /\
   to default_tx = Buffer [x00] /\
   (type default_tx = contract <-> be_value [x00] = 0) /\
   (type default_tx = message <-> be_value [x00] <> 0)) /\
  (repeat xaa 20 <> [] /\
   parsed_data Ref.rlp_decode (Buffer sample_wire) = Ok (Arr sample_raw) /\
   js_get sample_raw 3 = Buffer (repeat xaa 20) /\
   new_Transaction Ref.Buffer_hex Ref.rlp_decode Ref.validate (Buffer sample_wire)
   = Ok sample_tx /\
   to sample_tx = Buffer (repeat xaa 20) /\
   (type sample_tx = contract <-> be_value (repeat xaa 20) = 0) /\
   (type sample_tx = message <-> be_value (repeat xaa 20) <> 0)).
Proof.
  assert (H1 : [x00] <> @nil byte) by discriminate.
  assert (H2 : repeat xaa 20 <> @nil byte) by discriminate.
  split.
  - exact (conj H1 (conj eq_refl (conj eq_refl (conj eq_refl
             (type_follows_integer_of_nonempty_to
                Ref.Buffer_hex Ref.rlp_decode Ref.validate Ref.intToBuffer
                default_tx [x00] H1
                (or_introl (ex_intro _ Undefined
                   (ex_intro _ default_raw (conj eq_refl (conj eq_refl eq_refl)))))))))).
  - exact (conj H2 (conj eq_refl (conj eq_refl (conj eq_refl
             (type_follows_integer_of_nonempty_to
                Ref.Buffer_hex Ref.rlp_decode Ref.validate Ref.intToBuffer
                sample_tx (repeat xaa 20) H2
                (or_introl (ex_intro _ (Buffer sample_wire)
                   (ex_intro _ sample_raw (conj eq_refl (conj eq_refl eq_refl)))))))))).
Defined.

(** C2, as first stated, fails. The transaction built without argument
    has the single zero byte in [to], which is not empty, and its type is
    ['contract']; and once the setter has stored the twenty zero bytes of
    the zero address, [to] is twenty bytes long and the type is again
    ['contract']. *)
Lemma contract_type_with_nonempty_to :
  (new_Transaction Ref.Buffer_hex Ref.rlp_decode Ref.validate Undefined = Ok default_tx /\
   to default_tx = Buffer [x00] /\
   to default_tx <> Buffer [] /\
   type default_tx = contract) /\
  (exists tx,
     set_to Ref.Buffer_hex Ref.intToBuffer default_tx (Buffer zero_address) = Ok tx /\
     to tx = Buffer zero_address /\
     to tx <> Buffer [] /\
     type tx = contract).
Proof.
  split.
  - repeat split. discriminate.
  - eexists. split; [reflexivity|]. repeat split. discriminate.
Qed.

(** ** The further properties on concrete transactions *)

Lemma wrong_count_refused_witness :
  Forall (fun d => exists x, toItem Ref.Buffer_hex d = Ok x) ten_items /\
  length ten_items <> 9%nat /\
  new_Transaction Ref.Buffer_hex Ref.rlp_decode Ref.validate (Arr ten_items)
  = Throw InvalidFieldCount.
Proof.
  assert (H1 : Forall (fun d => exists x, toItem Ref.Buffer_hex d = Ok x) ten_items).
  { repeat constructor; eexists; reflexivity. }
  assert (H2 : length ten_items <> 9%nat) by discriminate.
  exact (conj H1 (conj H2
           (wrong_count_refused Ref.Buffer_hex Ref.rlp_decode Ref.validate
              ten_items H1 H2))).
Defined.

Lemma constructed_slots_are_items_witness :
  js_get hex_items 3 = Buffer (repeat xaa 20) /\
  new_Transaction Ref.Buffer_hex Ref.rlp_decode Ref.validate (Arr hex_items)
  = Ok sample_tx /\
  length (raw sample_tx) = length hex_items /\
  to sample_tx = Buffer (repeat xaa 20) /\
  forall (j : nat) (d : jsval),
    nth_error hex_items j = Some d ->
    toItem Ref.Buffer_hex d = Ok (js_get (raw sample_tx) j).
Proof.
  exact (conj eq_refl (conj eq_refl
           (constructed_slots_are_items Ref.Buffer_hex Ref.rlp_decode Ref.validate
              hex_items (repeat xaa 20) sample_tx eq_refl eq_refl))).
Defined.

Lemma falsy_argument_is_no_argument_witness :
  truthy Null = false /\
  new_Transaction Ref.Buffer_hex Ref.rlp_decode Ref.validate Null
  = new_Transaction Ref.Buffer_hex Ref.rlp_decode Ref.validate Undefined.
Proof.
  exact (conj eq_refl
           (falsy_argument_is_no_argument Ref.Buffer_hex Ref.rlp_decode Ref.validate
              Null eq_refl)).
Defined.

Lemma construct_from_bytes_is_construct_from_decoded_witness :
  truthy (Buffer sample_wire) = true /\
  isArray (Buffer sample_wire) = false /\
  Ref.rlp_decode (Buffer sample_wire) = Ok (Arr sample_raw) /\
  new_Transaction Ref.Buffer_hex Ref.rlp_decode Ref.validate (Buffer sample_wire)
  = new_Transaction Ref.Buffer_hex Ref.rlp_decode Ref.validate (Arr sample_raw).
Proof.
  exact (conj eq_refl (conj eq_refl (conj eq_refl
           (construct_from_bytes_is_construct_from_decoded
              Ref.Buffer_hex Ref.rlp_decode Ref.validate
              (Buffer sample_wire) sample_raw eq_refl eq_refl eq_refl)))).
Defined.

Lemma construct_from_nine_buffers_witness :
  length sample_fields = 9%nat /\
  Ref.validate fields (map Buffer sample_fields) = Ok tt /\
  exists tx,
    new_Transaction Ref.Buffer_hex Ref.rlp_decode Ref.validate
      (Arr (map Buffer sample_fields)) = Ok tx /\
    raw tx = map Buffer sample_fields /\
    serialize Ref.rlp_encode tx = Ref.rlp_encode (Arr (map Buffer sample_fields)) /\
    hash Ref.rlp_encode Ref.digest tx (Bool false)
    = digest_of_fields Ref.rlp_encode Ref.digest (map Buffer (firstn 6 sample_fields)).
Proof.
  exact (conj eq_refl (conj eq_refl
           (construct_from_nine_buffers
              Ref.Buffer_hex Ref.rlp_encode Ref.rlp_decode Ref.digest Ref.validate
              sample_fields eq_refl eq_refl))).
Defined.

Lemma reachable_nine_slots_witness :
  reachable Ref.Buffer_hex Ref.rlp_decode Ref.validate Ref.intToBuffer addressed_tx /\
  length (raw addressed_tx) = 9%nat.
Proof.
  assert (H : reachable Ref.Buffer_hex Ref.rlp_decode Ref.validate Ref.intToBuffer
                addressed_tx).
  { apply (reach_set_to _ _ _ _ default_tx addressed_tx (Buffer (repeat xaa 20))).
    - apply (reach_new _ _ _ _ Undefined). reflexivity.
    - reflexivity. }
  exact (conj H
           (reachable_nine_slots Ref.Buffer_hex Ref.rlp_decode Ref.validate
              Ref.intToBuffer addressed_tx H)).
Defined.

Lemma set_to_changes_to_only_witness :
  set_to Ref.Buffer_hex Ref.intToBuffer default_tx (Buffer (repeat xaa 20))
  = Ok addressed_tx /\
  (exists b, to addressed_tx = Buffer b /\ length b = 20%nat) /\
  nonce addressed_tx = nonce default_tx /\ gasPrice addressed_tx = gasPrice default_tx /\
  gasLimit addressed_tx = gasLimit default_tx /\ value addressed_tx = value default_tx /\
  data addressed_tx = data default_tx /\ v addressed_tx = v default_tx /\
  r addressed_tx = r default_tx /\ s addressed_tx = s default_tx.
Proof.
  exact (conj eq_refl
           (set_to_changes_to_only Ref.Buffer_hex Ref.intToBuffer
              default_tx addressed_tx (Buffer (repeat xaa 20)) eq_refl)).
Defined.

Lemma set_to_last_write_wins_witness :
  set_to Ref.Buffer_hex Ref.intToBuffer default_tx (Buffer zero_address) = Ok zeroed_tx /\
  set_to Ref.Buffer_hex Ref.intToBuffer zeroed_tx (Buffer (repeat xaa 20))
  = set_to Ref.Buffer_hex Ref.intToBuffer default_tx (Buffer (repeat xaa 20)).
Proof.
  exact (conj eq_refl
           (set_to_last_write_wins Ref.Buffer_hex Ref.intToBuffer
              default_tx zeroed_tx (Buffer zero_address) (Buffer (repeat xaa 20))
              eq_refl)).
Defined.

Lemma hash_reads_truth_value_witness :
  Null <> Undefined /\
  hash Ref.rlp_encode Ref.digest sample_tx Null
  = hash Ref.rlp_encode Ref.digest sample_tx (Bool false).
Proof.
  assert (H : Null <> Undefined) by discriminate.
  exact (conj H (hash_reads_truth_value Ref.rlp_encode Ref.digest sample_tx Null H)).
Defined.

Lemma hash_is_digest_of_serialization_witness :
  serialize Ref.rlp_encode sample_tx = Ok sample_wire /\
  hash Ref.rlp_encode Ref.digest sample_tx Undefined = Ok (Ref.digest sample_wire) /\
  hash Ref.rlp_encode Ref.digest sample_tx (Bool true) = Ok (Ref.digest sample_wire).
Proof.
  exact (conj eq_refl
           (hash_is_digest_of_serialization Ref.rlp_encode Ref.digest
              sample_tx sample_wire eq_refl)).
Defined.

Lemma getDataFee_zero_iff_witness :
  data sample_tx = Buffer [xca; xfe] /\
  0 < Ref.getFee "TXDATA" /\
  exists fee,
    getDataFee Ref.getFee sample_tx = Ok fee /\
    (fee = 0 <-> [xca; xfe] = [] \/ [xca; xfe] = [x00]) /\
    0 <= fee <= Z.of_nat (length [xca; xfe]) * Ref.getFee "TXDATA".
Proof.
  exact (conj eq_refl (conj eq_refl
           (getDataFee_zero_iff Ref.getFee sample_tx [xca; xfe] eq_refl eq_refl))).
Defined.

Lemma getDataFee_monotone_witness :
  data sample_tx = Buffer [xca; xfe] /\
  data longer_sample_tx = Buffer [xca; xfe; x00] /\
  0 <= Ref.getFee "TXDATA" /\
  [xca; xfe; x00] <> [x00] /\
  (length [xca; xfe] <= length [xca; xfe; x00])%nat /\
  exists fee1 fee2,
    getDataFee Ref.getFee sample_tx = Ok fee1 /\
    getDataFee Ref.getFee longer_sample_tx = Ok fee2 /\ fee1 <= fee2.
Proof.
  assert (H3 : 0 <= Ref.getFee "TXDATA") by discriminate.
  assert (H4 : [xca; xfe; x00] <> [x00]) by discriminate.
  assert (H5 : (length [xca; xfe] <= length [xca; xfe; x00])%nat)
    by (apply Nat.leb_le; reflexivity).
  exact (conj eq_refl (conj eq_refl (conj H3 (conj H4 (conj H5
           (getDataFee_monotone Ref.getFee sample_tx longer_sample_tx
              [xca; xfe] [xca; xfe; x00] eq_refl eq_refl H3 H4 H5)))))).
Defined.

Lemma validate_true_covers_fees_witness :
  gasLimit sample_tx = Buffer [x07; xd0] /\
  data sample_tx = Buffer [xca; xfe] /\
  0 <= Ref.getFee "TXDATA" /\
  validate Ref.getFee Ref.verifySignature sample_tx = Ok true /\
  Ref.verifySignature sample_tx = Ok true /\
  Ref.getFee "TRANSACTION" <= be_value [x07; xd0] /\
  ([xca; xfe] <> [x00] ->
   Z.of_nat (length [xca; xfe]) * Ref.getFee "TXDATA" + Ref.getFee "TRANSACTION"
   <= be_value [x07; xd0]).
Proof.
  assert (H3 : 0 <= Ref.getFee "TXDATA") by discriminate.
  exact (conj eq_refl (conj eq_refl (conj H3 (conj eq_refl
           (validate_true_covers_fees Ref.getFee Ref.verifySignature sample_tx
              [x07; xd0] [xca; xfe] eq_refl eq_refl H3 eq_refl))))).
Defined.

Lemma getUpfrontCost_ignores_leading_zeros_witness :
  gasLimit sample_tx = Buffer [x07; xd0] /\
  gasPrice sample_tx = Buffer [x0a] /\
  value sample_tx = Buffer [x01; x00] /\
  gasLimit padded_sample_tx = Buffer (repeat x00 1 ++ [x07; xd0]) /\
  gasPrice padded_sample_tx = Buffer (repeat x00 3 ++ [x0a]) /\
  value padded_sample_tx = Buffer (repeat x00 5 ++ [x01; x00]) /\
  getUpfrontCost padded_sample_tx = getUpfrontCost sample_tx.
Proof.
  exact (conj eq_refl (conj eq_refl (conj eq_refl (conj eq_refl (conj eq_refl
        (conj eq_refl
           (getUpfrontCost_ignores_leading_zeros sample_tx padded_sample_tx
              [x07; xd0] [x0a] [x01; x00] 1 3 5
              eq_refl eq_refl eq_refl eq_refl eq_refl eq_refl))))))).
Defined.

Lemma getUpfrontCost_at_least_value_witness :
  gasLimit sample_tx = Buffer [x07; xd0] /\
  gasPrice sample_tx = Buffer [x0a] /\
  value sample_tx = Buffer [x01; x00] /\
  exists cost,
    getUpfrontCost sample_tx = Ok cost /\
    0 <= be_value [x01; x00] <= cost /\
    (be_value [x07; xd0] = 0 \/ be_value [x0a] = 0 -> cost = be_value [x01; x00]).
Proof.
  exact (conj eq_refl (conj eq_refl (conj eq_refl
           (getUpfrontCost_at_least_value sample_tx [x07; xd0] [x0a] [x01; x00]
              eq_refl eq_refl eq_refl)))).
Defined.

Lemma getSenderPublicKey_follows_recovery_witness :
  r sample_tx = Buffer (repeat x11 32) /\
  s sample_tx = Buffer (repeat x22 32) /\
  v sample_tx = Buffer [x1b] /\
  hash Ref.rlp_encode Ref.digest sample_tx (Bool false) = Ok sample_signing_hash /\
  exists key,
    getSenderPublicKey Ref.rlp_encode Ref.digest Ref.recoverPubKey sample_tx = Ok key /\
    (forall k,
        key = Some k <->
        Ref.recoverPubKey (be_value sample_signing_hash)
          (be_value (repeat x11 32), be_value (repeat x22 32), be_value [x1b] - 27)
          (be_value [x1b] - 27) = Ok k) /\
    (key = None <->
     exists e,
       Ref.recoverPubKey (be_value sample_signing_hash)
         (be_value (repeat x11 32), be_value (repeat x22 32), be_value [x1b] - 27)
         (be_value [x1b] - 27) = Throw e).
Proof.
  exact (conj eq_refl (conj eq_refl (conj eq_refl (conj eq_refl
           (getSenderPublicKey_follows_recovery
              Ref.rlp_encode Ref.digest Ref.recoverPubKey sample_tx
              (repeat x11 32) (repeat x22 32) [x1b] sample_signing_hash
              eq_refl eq_refl eq_refl eq_refl))))).
Defined.
